(** * kubectl-helper: the [ip] command

    A shallow embedding of [src/cmd/ip.go] and of the root command of
    [src/cmd/myexec.go].  The repository holds two variants of the [ip]
    command:

    - the resource-builder variant ([runFunc], [convertObjectToPodInfo],
      [printColoredTable]), which walks unstructured objects and filters them
      by a search pattern; it lives in [Module Builder];
    - the typed-client variant ([getPodAndNodeInfo], [printPodInfo]), which
      lists pods and nodes through the typed clientset and joins them through
      a node address map; it lives in [Module Typed].

    The cluster client is outside the repository.  A listing call is modelled
    as an input of the run (it either fails with an error or yields the listed
    objects), and every call the program makes is recorded in a trace of
    events, together with what it writes on standard output.

    The functions of the Go library that the command calls are embedded as
    the library defines them: strings are sequences of bytes, decoded into
    runes as [unicode/utf8] does ([strings.ToLower], the widths of [fmt]),
    and paths are cleaned as [path/filepath] does.  The one part taken as a
    parameter is the case table of [unicode] beyond ASCII. *)

From Stdlib Require Import Ascii String List Bool Arith NArith Lia.
From stdpp Require Import base option list strings gmap.

Local Open Scope string_scope.
Set Warnings "-register-all".

(** ** Go values shared by the two variants *)

(** A Go function that returns [(T, error)] and may panic. *)
Inductive Outcome (A : Type) : Type :=
| Ok (a : A)
| Err (e : string)
| Panic (msg : string).
Arguments Ok {A} a.
Arguments Err {A} e.
Arguments Panic {A} msg.

(** The scope of a pod listing. *)
Inductive Scope : Type :=
| AllNamespaces
| NamespaceParam (ns : string).

(** How a line is written: [fmt.Printf]/[fmt.Println] or a [color.Color]. *)
Inductive Style : Type :=
| Plain
| FgCyanBold
| FgCyan.

(** What a run does to the outside world, in order. *)
Inductive Event : Type :=
| ListPods (scope : Scope)
| ListNodes
| Stdout (style : Style) (text : string).

(** The listing calls of a trace, in order. *)
Fixpoint listing_calls (t : list Event) : list Event :=
  match t with
  | [] => []
  | Stdout _ _ :: t' => listing_calls t'
  | e :: t' => e :: listing_calls t'
  end.

(** The text written on standard output by a trace. *)
Fixpoint stdout_of (t : list Event) : list string :=
  match t with
  | [] => []
  | Stdout _ s :: t' => s :: stdout_of t'
  | _ :: t' => stdout_of t'
  end.

(** The line feed that ends a printed line. *)
Definition nl : string := String (ascii_of_nat 10) EmptyString.

(** ** The [unicode/utf8] functions behind the string functions *)

Module utf8.

(** [utf8.RuneError], the replacement character U+FFFD. *)
Definition RuneError : N := 0xFFFD%N.

(** A byte of a string as a number. *)
Definition byte (c : ascii) : N := N_of_ascii c.

(** The entry of the table [first] for a first byte, with the range of
    [acceptRanges] that the second byte must lie in. *)
Inductive FirstByte : Type :=
| ASCII
| Invalid
| Lead (size : nat) (lo hi : N).

Definition first (s0 : N) : FirstByte :=
  (if s0 <? 0x80 then ASCII
   else if s0 <? 0xC2 then Invalid
   else if s0 <? 0xE0 then Lead 2 0x80 0xBF
   else if s0 =? 0xE0 then Lead 3 0xA0 0xBF
   else if s0 <? 0xED then Lead 3 0x80 0xBF
   else if s0 =? 0xED then Lead 3 0x80 0x9F
   else if s0 <? 0xF0 then Lead 3 0x80 0xBF
   else if s0 =? 0xF0 then Lead 4 0x90 0xBF
   else if s0 <? 0xF4 then Lead 4 0x80 0xBF
   else if s0 =? 0xF4 then Lead 4 0x80 0x8F
   else Invalid)%N.

(** A continuation byte lies in [locb, hicb]. *)
Definition outside (s lo hi : N) : bool := ((s <? lo) || (hi <? s))%N.

(** [utf8.DecodeRuneInString]: the first rune of the string and its width in
    bytes; an encoding that is invalid or too short gives [RuneError] and
    width 1, the empty string [RuneError] and width 0. *)
Definition DecodeRuneInString (s : string) : N * nat :=
  match s with
  | EmptyString => (RuneError, 0%nat)
  | String c0 t0 =>
      let s0 := byte c0 in
      match first s0 with
      | ASCII => (s0, 1%nat)
      | Invalid => (RuneError, 1%nat)
      | Lead sz lo hi =>
          match t0 with
          | EmptyString => (RuneError, 1%nat)
          | String c1 t1 =>
              let s1 := byte c1 in
              if outside s1 lo hi then (RuneError, 1%nat)
              else if (sz <=? 2)%nat then
                (N.lor (N.shiftl (N.land s0 0x1F) 6) (N.land s1 0x3F), 2%nat)
              else
                match t1 with
                | EmptyString => (RuneError, 1%nat)
                | String c2 t2 =>
                    let s2 := byte c2 in
                    if outside s2 0x80 0xBF then (RuneError, 1%nat)
                    else if (sz <=? 3)%nat then
                      (N.lor (N.shiftl (N.land s0 0x0F) 12)
                         (N.lor (N.shiftl (N.land s1 0x3F) 6)
                                (N.land s2 0x3F)), 3%nat)
                    else
                      match t2 with
                      | EmptyString => (RuneError, 1%nat)
                      | String c3 t3 =>
                          let s3 := byte c3 in
                          if outside s3 0x80 0xBF then (RuneError, 1%nat)
                          else
                            (N.lor (N.shiftl (N.land s0 0x07) 18)
                               (N.lor (N.shiftl (N.land s1 0x3F) 12)
                                  (N.lor (N.shiftl (N.land s2 0x3F) 6)
                                         (N.land s3 0x3F))), 4%nat)
                      end
                end
          end
      end
  end.

(** The runes that [for _, c := range s] yields: each step decodes one rune
    and moves on by its width. *)
Fixpoint runes (s : string) : list N :=
  match s with
  | EmptyString => []
  | String _ s1 =>
      let (r, size) := DecodeRuneInString s in
      r :: match size, s1 with
           | 2%nat, String _ s2 => runes s2
           | 3%nat, String _ (String _ s3) => runes s3
           | 4%nat, String _ (String _ (String _ s4)) => runes s4
           | _, _ => runes s1
           end
  end.

(** [utf8.RuneCountInString]: invalid and short encodings count as one rune
    for each byte. *)
Definition RuneCountInString (s : string) : nat := length (runes s).

Definition byte_string (b : N) : string := String (ascii_of_N b) EmptyString.

(** [utf8.AppendRune] on an empty buffer: the UTF-8 encoding of the rune, and
    that of [RuneError] for a surrogate or a value beyond U+10FFFF. *)
Definition EncodeRune (r : N) : string :=
  let three (r : N) :=
    byte_string (N.lor 0xE0 (N.shiftr r 12)) ++
    byte_string (N.lor 0x80 (N.land (N.shiftr r 6) 0x3F)) ++
    byte_string (N.lor 0x80 (N.land r 0x3F)) in
  (if r <=? 0x7F then byte_string r
   else if r <=? 0x7FF then
     byte_string (N.lor 0xC0 (N.shiftr r 6)) ++
     byte_string (N.lor 0x80 (N.land r 0x3F))
   else if (0x10FFFF <? r) || ((0xD800 <=? r) && (r <=? 0xDFFF)) then
     three RuneError
   else if r <=? 0xFFFF then three r
   else
     byte_string (N.lor 0xF0 (N.shiftr r 18)) ++
     byte_string (N.lor 0x80 (N.land (N.shiftr r 12) 0x3F)) ++
     byte_string (N.lor 0x80 (N.land (N.shiftr r 6) 0x3F)) ++
     byte_string (N.lor 0x80 (N.land r 0x3F)))%N.

End utf8.

(** ** The [unicode] function behind [strings.ToLower] *)

Module unicode.

(** The case table of the [unicode] package, which is outside the repository:
    the lower-case mapping [To(LowerCase, r)] of a code point beyond ASCII.
    The properties below hold for every such table. *)
Class CaseTable : Type := { lower_beyond_ascii : N -> N }.

(** [unicode.ToLower]. *)
Definition ToLower {tables : CaseTable} (r : N) : N :=
  (if r <=? 0x7F then
     if (0x41 <=? r) && (r <=? 0x5A) then r + 0x20 else r
   else lower_beyond_ascii r)%N.

End unicode.

(** ** The [strings] and [fmt] functions the command uses *)

Module GoStrings.

(** The ASCII path of [strings.ToLower] on one byte: 'A'..'Z' move to
    'a'..'z'. *)
Definition lower_byte (c : ascii) : ascii :=
  let n := nat_of_ascii c in
  if Nat.leb 65 n && Nat.leb n 90 then ascii_of_nat (n + 32) else c.

Fixpoint lower_bytes (s : string) : string :=
  match s with
  | EmptyString => EmptyString
  | String c s' => String (lower_byte c) (lower_bytes s')
  end.

(** Every byte of the string is below [utf8.RuneSelf]. *)
Fixpoint isASCII (s : string) : bool :=
  match s with
  | EmptyString => true
  | String c s' => (utf8.byte c <? 0x80)%N && isASCII s'
  end.

(** [strings.Map] with a mapping that returns code points (no rune is
    dropped): the encodings of the mapped runes of the string, one after the
    other. *)
Definition Map (mapping : N -> N) (s : string) : string :=
  foldr (fun c out => utf8.EncodeRune (mapping c) ++ out) EmptyString
        (utf8.runes s).

(** [strings.ToLower]: the byte loop for a string that is all ASCII,
    [Map(unicode.ToLower, s)] otherwise. *)
Definition ToLower {tables : unicode.CaseTable} (s : string) : string :=
  if isASCII s then lower_bytes s else Map unicode.ToLower s.

(** [strings.HasPrefix s prefix]. *)
Fixpoint HasPrefix (s prefix : string) {struct prefix} : bool :=
  match prefix, s with
  | EmptyString, _ => true
  | String _ _, EmptyString => false
  | String p prefix', String c s' =>
      if Ascii.eqb p c then HasPrefix s' prefix' else false
  end.

(** [strings.Contains s substr]: [substr] occurs at some offset of [s]. *)
Fixpoint Contains (s substr : string) : bool :=
  HasPrefix s substr ||
  match s with
  | EmptyString => false
  | String _ s' => Contains s' substr
  end.

(** [strings.Repeat]. *)
Fixpoint Repeat (s : string) (count : nat) : string :=
  match count with
  | O => EmptyString
  | S n => s ++ Repeat s n
  end.

(** The verb [%-Ns] of [fmt]: left-justified, never truncated, padded with
    spaces up to width [w], which [fmt] counts in runes. *)
Definition pad_right (w : nat) (s : string) : string :=
  s ++ Repeat " " (w - utf8.RuneCountInString s)%nat.

End GoStrings.

(** ** The [path/filepath] function the command uses *)

Module filepath.

(** The elements of a path, split at every separator; [cur] is the
    element being read. *)
Fixpoint elements (cur path : string) : list string :=
  match path with
  | EmptyString => [cur]
  | String c rest =>
      if Ascii.eqb c "/" then cur :: elements EmptyString rest
      else elements (cur ++ String c EmptyString) rest
  end.

(** One element of the loop of [Clean]; [out] holds the elements written so
    far, the last one first.  An empty element and "." are dropped; ".."
    removes the last element when there is one that is not ".." itself, is
    dropped at the root, and is kept otherwise. *)
Definition step (rooted : bool) (out : list string) (elem : string)
  : list string :=
  if decide (elem = "") then out
  else if decide (elem = ".") then out
  else if decide (elem = "..") then
    match out with
    | last :: before =>
        if decide (last = "..") then (if rooted then out else ".." :: out)
        else before
    | [] => if rooted then [] else [".."]
    end
  else elem :: out.

(** [filepath.Clean] with '/' as separator. *)
Definition Clean (path : string) : string :=
  if decide (path = "") then "."
  else
    let rooted := GoStrings.HasPrefix path "/" in
    let out := rev (foldl (step rooted) [] (elements EmptyString path)) in
    let cleaned := (if rooted then "/" else "") ++ String.concat "/" out in
    if decide (cleaned = "") then "." else cleaned.

(** [filepath.Join]: the elements from the first one that is not empty,
    joined with the separator and cleaned; the empty string when there is
    none. *)
Fixpoint Join (elem : list string) : string :=
  match elem with
  | [] => ""
  | e :: rest =>
      if decide (e = "") then Join rest
      else Clean (String.concat "/" elem)
  end.

End filepath.


(** ** The resource-builder variant *)

Module Builder.

(** PodInfo holds the essential Pod data we want to display. *)
Record PodInfo : Type := {
  Name : string;
  Namespace : string;
  IP : string;
  NodeName : string;
  NodeIP : string
}.

(** A Go [interface{}] as it occurs in the content of an unstructured object.
    Floating-point numbers do not occur in the fields the command reads and
    are left out. *)
Inductive Value : Type :=
| VNil
| VString (s : string)
| VBool (b : bool)
| VInt64 (n : Z)
| VSlice (l : list Value)
| VMap (m : gmap string Value).

(** A [runtime.Object] handed to the visitor: an [*unstructured.Unstructured]
    with its content, or another object together with what
    [runtime.DefaultUnstructuredConverter.ToUnstructured] answers for it
    (an error message or the converted content). *)
Inductive Object : Type :=
| Unstructured (content : gmap string Value)
| Structured (converted : string + gmap string Value).

(** [m[k]] on a Go map: the zero value [nil] when the key is absent. *)
Definition index (m : gmap string Value) (k : string) : Value :=
  default VNil (m !! k).

(** [v.(map[string]interface{})] in its comma-ok form. *)
Definition as_map (v : Value) : option (gmap string Value) :=
  match v with
  | VMap m => Some m
  | _ => None
  end.

(** [v.(string)] in its comma-ok form. *)
Definition as_string (v : Value) : option string :=
  match v with
  | VString s => Some s
  | _ => None
  end.

(** The dynamic type of a value, as the runtime names it. *)
Definition type_name (v : Value) : string :=
  match v with
  | VNil => "nil"
  | VString _ => "string"
  | VBool _ => "bool"
  | VInt64 _ => "int64"
  | VSlice _ => "[]interface {}"
  | VMap _ => "map[string]interface {}"
  end.

(** [v.(string)] without the comma-ok form: a value of another dynamic type
    (also the [nil] of an absent key) makes the runtime panic. *)
Definition assert_string (v : Value) : Outcome string :=
  match v with
  | VString s => Ok s
  | _ => Panic ("interface conversion: interface {} is " ++ type_name v
                ++ ", not string")
  end.

(** [unstructured.NestedString] over two fields, as [GetName] and
    [GetNamespace] use it: the empty string unless the path leads through a
    map to a string. *)
Definition getNestedString (obj : gmap string Value) (f1 f2 : string)
  : string :=
  match obj !! f1 with
  | Some (VMap m) =>
      match m !! f2 with
      | Some (VString s) => s
      | _ => ""
      end
  | _ => ""
  end.

Definition GetName (obj : gmap string Value) : string :=
  getNestedString obj "metadata" "name".

Definition GetNamespace (obj : gmap string Value) : string :=
  getNestedString obj "metadata" "namespace".

(** convertObjectToPodInfo attempts to convert the provided runtime.Object
    to PodInfo. *)
Definition convertObjectToPodInfo (obj : Object) : Outcome PodInfo :=
  let unstructuredObj :=
    match obj with
    | Unstructured content => inr content
    | Structured (inl err) =>
        inl ("failed to convert object to unstructured: " ++ err)
    | Structured (inr objMap) => inr objMap
    end in
  match unstructuredObj with
  | inl e => Err e
  | inr content =>
      match as_map (index content "spec"),
            as_map (index content "status") with
      | Some spec, Some status =>
          let podName := GetName content in
          let podNamespace := GetNamespace content in
          let podIP := default "" (as_string (index status "podIP")) in
          let nodeNameRaw := index spec "nodeName" in
          match assert_string nodeNameRaw with
          | Ok nodeName =>
              let hostIPRaw := index status "hostIP" in
              match assert_string hostIPRaw with
              | Ok hostIP =>
                  Ok {| Name := podName;
                        Namespace := podNamespace;
                        IP := podIP;
                        NodeName := nodeName;
                        NodeIP := hostIP |}
              | Err e => Err e
              | Panic msg => Panic msg
              end
          | Err e => Err e
          | Panic msg => Panic msg
          end
      | _, _ =>
          Err "object does not contain 'spec' or 'status' in expected format"
      end
  end.

(** The row format ["%-30s %-20s %-20s %-30s %-20s\n"]. *)
Definition table_row (a b c d e : string) : string :=
  GoStrings.pad_right 30 a ++ " " ++ GoStrings.pad_right 20 b ++ " " ++
  GoStrings.pad_right 20 c ++ " " ++ GoStrings.pad_right 30 d ++ " " ++
  GoStrings.pad_right 20 e ++ nl.

(** printColoredTable prints the table of matching pods using color for
    headers and lines. *)
Definition printColoredTable (pods : list PodInfo) : list Event :=
  ([ Stdout Plain nl;
     Stdout FgCyanBold
       (table_row "NAME" "NAMESPACE" "POD IP" "NODE NAME" "NODE IP");
     Stdout FgCyan (GoStrings.Repeat "-" 120 ++ nl) ]
   ++ map (fun p =>
             Stdout Plain
               (table_row (Name p) (Namespace p) (IP p) (NodeName p)
                          (NodeIP p)))
          pods
   ++ [ Stdout Plain nl ])%list.

(** The function literal handed to [Visit]: the list [matchingPods] it
    appends to is threaded through, and the returned error is the [Err]
    case. *)
Definition visitFn {tables : unicode.CaseTable} (searchTerm : string)
    (matchingPods : list PodInfo) (info : Object) (visitErr : option string)
  : Outcome (list PodInfo) :=
  match visitErr with
  | Some e => Err e
  | None =>
      match convertObjectToPodInfo info with
      | Err _ => Ok matchingPods
      | Panic msg => Panic msg
      | Ok podInfo =>
          if GoStrings.Contains (GoStrings.ToLower (Name podInfo))
                                (GoStrings.ToLower searchTerm)
          then Ok (matchingPods ++ [podInfo])%list
          else Ok matchingPods
      end
  end.

(** [rb.Do().Visit(fn)] over the objects the listing yielded, in the order of
    the enumeration: [fn] is called on each object with a nil [visitErr].  A
    panic of [fn] ends the walk; so would an error returned by [fn], which
    the callback of [runFunc] returns for a [visitErr] that is not nil
    only. *)
Fixpoint visit_objects
    (fn : list PodInfo -> Object -> option string -> Outcome (list PodInfo))
    (acc : list PodInfo) (objs : list Object) : Outcome (list PodInfo) :=
  match objs with
  | [] => Ok acc
  | o :: rest =>
      match fn acc o None with
      | Ok acc' => visit_objects fn acc' rest
      | Err e => Err e
      | Panic msg => Panic msg
      end
  end.

(** The listing of the builder fails as a whole with an error, which [Visit]
    returns, or yields the objects that the callback then visits. *)
Definition Visit (listing : string + list Object)
    (fn : list PodInfo -> Object -> option string -> Outcome (list PodInfo))
  : Outcome (list PodInfo) :=
  match listing with
  | inl e => Err e
  | inr objs => visit_objects fn [] objs
  end.

(** The cluster as the builder sees it: what a pod listing of a scope
    answers. *)
Record Cluster : Type := {
  pods_of : Scope -> string + list Object
}.

Definition usage_error : string :=
  "please provide a search pattern, for example:" ++ nl ++
  "  ./api-deneme ip nginx" ++ nl ++ "or:" ++ nl ++
  "  ./api-deneme ip -n dev nginx".

(** The scope the builder is given: [NamespaceParam(namespaceFlag)] for a
    flag that is not empty, [AllNamespaces(true)] otherwise. *)
Definition builder_scope (namespaceFlag : string) : Scope :=
  if decide (namespaceFlag <> "") then NamespaceParam namespaceFlag
  else AllNamespaces.

(** runFunc returns a function that searches for pods (in one or all
    namespaces) and filters them by the provided SEARCH_PATTERN.  The result
    is the trace of the run and the error the function returns. *)
Definition runFunc {tables : unicode.CaseTable} (cluster : Cluster)
    (namespaceFlag : string)
    (args : list string) : list Event * Outcome unit :=
  match args with
  | [] => ([], Err usage_error)
  | searchTerm :: _ =>
      let scope := builder_scope namespaceFlag in
      match Visit (pods_of cluster scope) (visitFn searchTerm) with
      | Err e => ([ListPods scope], Err ("failed to retrieve pods: " ++ e))
      | Panic msg => ([ListPods scope], Panic msg)
      | Ok matchingPods =>
          match matchingPods with
          | [] =>
              ([ListPods scope;
                Stdout Plain ("No pods found matching the pattern: "
                              ++ searchTerm ++ nl)],
               Ok tt)
          | _ :: _ =>
              (ListPods scope :: printColoredTable matchingPods, Ok tt)
          end
      end
  end.

(** [Execute] of the root command with the [ip] command selected: an error
    of the command is printed and the process exits with status 1; a panic
    ends the process with status 2; otherwise the status is 0. *)
Definition Execute {tables : unicode.CaseTable} (cluster : Cluster)
    (namespaceFlag : string)
    (args : list string) : list Event * nat :=
  match runFunc cluster namespaceFlag args with
  | (t, Ok _) => (t, 0%nat)
  | (t, Err e) => ((t ++ [Stdout Plain (e ++ nl)])%list, 1%nat)
  | (t, Panic _) => (t, 2%nat)
  end.

(** *** Vocabulary for the properties of this variant *)

(** The content of an object once it is unstructured, if it can be. *)
Definition content_of (obj : Object) : option (gmap string Value) :=
  match obj with
  | Unstructured content => Some content
  | Structured (inl _) => None
  | Structured (inr objMap) => Some objMap
  end.

(** The name of the instance an object stands for. *)
Definition object_name (obj : Object) : string :=
  match content_of obj with
  | Some content => GetName content
  | None => ""
  end.

(** The object has content, but its "spec" or its "status" section is
    missing (or is not a map). *)
Definition lacks_section (obj : Object) : bool :=
  match content_of obj with
  | Some content =>
      match as_map (index content "spec"),
            as_map (index content "status") with
      | Some _, Some _ => false
      | _, _ => true
      end
  | None => false
  end.

(** The conversion of the object panics. *)
Definition panics (obj : Object) : bool :=
  match convertObjectToPodInfo obj with
  | Panic _ => true
  | _ => false
  end.

(** The records of the objects that convert, in the order of the listing. *)
Definition converted (objs : list Object) : list PodInfo :=
  omap (fun obj =>
          match convertObjectToPodInfo obj with
          | Ok podInfo => Some podInfo
          | _ => None
          end)
       objs.

(** The case-insensitive substring match of [runFunc] on a record. *)
Definition matches {tables : unicode.CaseTable} (searchTerm : string)
    (podInfo : PodInfo) : bool :=
  GoStrings.Contains (GoStrings.ToLower (Name podInfo))
                     (GoStrings.ToLower searchTerm).

End Builder.

(** ** The typed-client variant *)

Module Typed.

(** The structure that holds the pod data (no namespace in this variant). *)
Record PodInfo : Type := {
  Name : string;
  IP : string;
  NodeName : string;
  NodeIP : string
}.

(** The fields of [corev1.Pod] and [corev1.Node] that the command reads.  An
    unset string field of a typed object is the empty string. *)
Record PodSpec : Type := { spec_NodeName : string }.
Record PodStatus : Type := { status_PodIP : string }.
Record Pod : Type := {
  pod_Name : string;
  Spec : PodSpec;
  Status : PodStatus
}.

Record NodeAddress : Type := {
  addr_Type : string;
  Address : string
}.
Record NodeStatus : Type := { Addresses : list NodeAddress }.
Record Node : Type := {
  node_Name : string;
  node_Status : NodeStatus
}.

(** What the process finds around it: the environment, the home directory,
    what loading a kubeconfig path and creating the clientset answer (an
    error, if any), and what the two listing calls answer. *)
Record Env : Type := {
  KUBECONFIG : string;
  UserHomeDir : string + string;
  BuildConfigFromFlags : string -> option string;
  NewForConfig : option string;
  PodsList : string -> string + list Pod;
  NodesList : string + list Node
}.

(** The inner loop over [node.Status.Addresses]: the address of the first
    entry of type "InternalIP", where the loop breaks. *)
Fixpoint firstInternalIP (addrs : list NodeAddress) : option string :=
  match addrs with
  | [] => None
  | addr :: rest =>
      if decide (addr_Type addr = "InternalIP") then Some (Address addr)
      else firstInternalIP rest
  end.

(** The body of the outer loop over [nodes.Items] for one node: the map
    gets an entry when the inner loop finds an address. *)
Definition addNode (nodeIPMap : gmap string string) (node : Node)
  : gmap string string :=
  match firstInternalIP (Addresses (node_Status node)) with
  | Some ip => <[node_Name node := ip]> nodeIPMap
  | None => nodeIPMap
  end.

(** The outer loop over [nodes.Items], which fills [nodeIPMap], empty at
    first. *)
Definition buildNodeIPMap (nodes : list Node) : gmap string string :=
  foldl addNode ∅ nodes.

(** The body of the loop over [pods.Items] for one pod: [None] stands for
    [continue], otherwise the record that is appended. *)
Definition joinPod (nodeIPMap : gmap string string) (pod : Pod)
  : option PodInfo :=
  if decide (status_PodIP (Status pod) = "") then None
  else
    let podInfo := {| Name := pod_Name pod;
                      IP := status_PodIP (Status pod);
                      NodeName := spec_NodeName (Spec pod);
                      NodeIP := "" |} in
    match nodeIPMap !! spec_NodeName (Spec pod) with
    | Some nodeIP =>
        Some {| Name := Name podInfo; IP := IP podInfo;
                NodeName := NodeName podInfo; NodeIP := nodeIP |}
    | None => Some podInfo
    end.

(** The loop over [pods.Items]. *)
Definition joinPods (nodeIPMap : gmap string string) (pods : list Pod)
  : list PodInfo :=
  foldl (fun podInfos pod =>
           match joinPod nodeIPMap pod with
           | Some podInfo => (podInfos ++ [podInfo])%list
           | None => podInfos
           end)
        [] pods.

(** [getPodAndNodeInfo]: the trace of the listing calls made and the
    returned pair, [Err] for [(nil, err)] and [Ok] for [(podInfos, nil)].
    The kubeconfig path is the value of KUBECONFIG or, when that is empty,
    [filepath.Join(homeDir, ".kube", "config")]. *)
Definition getPodAndNodeInfo (env : Env)
  : list Event * Outcome (list PodInfo) :=
  let kubeconfig :=
    if decide (KUBECONFIG env = "") then
      match UserHomeDir env with
      | inl err => inl ("error getting home directory: " ++ err)
      | inr homeDir => inr (filepath.Join [homeDir; ".kube"; "config"])
      end
    else inr (KUBECONFIG env) in
  match kubeconfig with
  | inl e => ([], Err e)
  | inr kubeconfig =>
      match BuildConfigFromFlags env kubeconfig with
      | Some err => ([], Err ("error building kubeconfig: " ++ err))
      | None =>
          match NewForConfig env with
          | Some err =>
              ([], Err ("error creating kubernetes client: " ++ err))
          | None =>
              match PodsList env "default" with
              | inl err =>
                  ([ListPods (NamespaceParam "default")],
                   Err ("error listing pods: " ++ err))
              | inr pods =>
                  match NodesList env with
                  | inl err =>
                      ([ListPods (NamespaceParam "default"); ListNodes],
                       Err ("error listing nodes: " ++ err))
                  | inr nodes =>
                      let nodeIPMap := buildNodeIPMap nodes in
                      ([ListPods (NamespaceParam "default"); ListNodes],
                       Ok (joinPods nodeIPMap pods))
                  end
              end
          end
      end
  end.

(** The row format ["%-40s %-15s %-30s %-15s\n"]. *)
Definition table_row (a b c d : string) : string :=
  GoStrings.pad_right 40 a ++ " " ++ GoStrings.pad_right 15 b ++ " " ++
  GoStrings.pad_right 30 c ++ " " ++ GoStrings.pad_right 15 d ++ nl.

(** [printPodInfo]. *)
Definition printPodInfo (podInfos : list PodInfo) : list Event :=
  ([ Stdout Plain (table_row "POD NAME" "POD IP" "NODE NAME" "NODE IP");
     Stdout Plain (GoStrings.Repeat "-" 80 ++ nl) ]
   ++ map (fun info =>
             Stdout Plain
               (table_row (Name info) (IP info) (NodeName info)
                          (NodeIP info)))
          podInfos)%list.

(** The [Run] function of [ipCmd]: the trace and the exit status of the
    process ([os.Exit(1)] on an error, 0 otherwise).  The arguments are not
    read and the command declares no flag. *)
Definition Run (env : Env) (args : list string) : list Event * nat :=
  let connecting :=
    Stdout Plain ("Connecting to Kubernetes cluster..." ++ nl) in
  match getPodAndNodeInfo env with
  | (t, Err err) =>
      (connecting ::
         (t ++ [Stdout Plain ("Error connecting to Kubernetes cluster: "
                              ++ err ++ nl)])%list,
       1%nat)
  | (t, Ok podInfos) =>
      (connecting :: (t ++ printPodInfo podInfos)%list, 0%nat)
  | (t, Panic _) => (connecting :: t, 2%nat)
  end.

(** *** Vocabulary for the properties of this variant *)

(** The run gets as far as the listing calls: a kubeconfig path is found,
    the configuration loads and the clientset is created. *)
Definition client_ready (env : Env) : Prop :=
  (KUBECONFIG env <> "" \/ exists homeDir, UserHomeDir env = inr homeDir) /\
  (forall path, BuildConfigFromFlags env path = None) /\
  NewForConfig env = None.

(** The kubeconfig path of the run: the value of KUBECONFIG when it is not
    empty, ".kube/config" under the home directory otherwise. *)
Definition resolved_kubeconfig (env : Env) (path : string) : Prop :=
  (KUBECONFIG env <> "" /\ path = KUBECONFIG env) \/
  (KUBECONFIG env = "" /\
   exists homeDir, UserHomeDir env = inr homeDir /\
                   path = filepath.Join [homeDir; ".kube"; "config"]).

(** The kubeconfig of the run loads and the clientset is created. *)
Definition client_created (env : Env) : Prop :=
  exists path, resolved_kubeconfig env path /\
               BuildConfigFromFlags env path = None /\
               NewForConfig env = None.

End Typed.

(** ** Sample clusters *)

Module Samples.

Import Builder.

Definition mkPod (name ns : string) (spec status : gmap string Value)
  : Object :=
  Unstructured
    (<["metadata" := VMap (<["name" := VString name]>
                           (<["namespace" := VString ns]> ∅))]>
     (<["spec" := VMap spec]> (<["status" := VMap status]> ∅))).

(** A running pod. *)
Definition pod_running : Object :=
  mkPod "Nginx-1" "dev"
        (<["nodeName" := VString "h1"]> ∅)
        (<["podIP" := VString "10.1.0.5"]>
         (<["hostIP" := VString "10.0.0.1"]> ∅)).

(** A pod bound to a node that has no address of its own yet. *)
Definition pod_creating : Object :=
  mkPod "nginx-2" "dev"
        (<["nodeName" := VString "h1"]> ∅)
        (<["hostIP" := VString "10.0.0.1"]> ∅).

(** A pending pod: not bound to a node, no addresses. *)
Definition pod_pending : Object :=
  mkPod "nginx-3" "dev" ∅ (<["phase" := VString "Pending"]> ∅).

(** An object with neither a "spec" nor a "status" section. *)
Definition pod_broken : Object :=
  Unstructured (<["metadata" := VMap (<["name" := VString "nginx-4"]> ∅)]> ∅).

(** A pod of another application. *)
Definition pod_other : Object :=
  mkPod "redis-0" "prod"
        (<["nodeName" := VString "h2"]> ∅)
        (<["podIP" := VString "10.1.0.9"]>
         (<["hostIP" := VString "10.0.0.2"]> ∅)).

(** An excerpt of the lower-case table, enough to run the examples: the
    capital letters of Latin-1 and the Kelvin sign; other code points are
    mapped to themselves. *)
Definition table_excerpt : unicode.CaseTable :=
  {| unicode.lower_beyond_ascii := fun r =>
       (if (0xC0 <=? r) && (r <=? 0xDE) && negb (r =? 0xD7) then r + 0x20
        else if r =? 0x212A then 0x6B
        else r)%N |}.

(** The Kelvin sign U+212A, in UTF-8, followed by "ube-proxy". *)
Definition kelvin_ube_proxy : string :=
  String (ascii_of_nat 226) (String (ascii_of_nat 132)
    (String (ascii_of_nat 170) "ube-proxy")).

(** A running pod of the system namespace. *)
Definition pod_kube_proxy : Object :=
  mkPod "kube-proxy" "kube-system"
        (<["nodeName" := VString "h1"]> ∅)
        (<["podIP" := VString "10.0.0.1"]>
         (<["hostIP" := VString "10.0.0.1"]> ∅)).

Definition cluster_of (objs : list Object) : Cluster :=
  {| pods_of := fun _ => inr objs |}.

Definition cluster_down (err : string) : Cluster :=
  {| pods_of := fun _ => inl err |}.

(** The typed side: two nodes and three pods of the default namespace. *)
Definition internal (ip : string) : Typed.NodeAddress :=
  {| Typed.addr_Type := "InternalIP"; Typed.Address := ip |}.

Definition external (ip : string) : Typed.NodeAddress :=
  {| Typed.addr_Type := "ExternalIP"; Typed.Address := ip |}.

Definition mkNode (name : string) (addrs : list Typed.NodeAddress)
  : Typed.Node :=
  {| Typed.node_Name := name;
     Typed.node_Status := {| Typed.Addresses := addrs |} |}.

Definition nodes : list Typed.Node :=
  [ mkNode "h1" [external "192.0.2.1"; internal "10.0.0.1";
                 internal "10.0.0.7"];
    mkNode "h2" [internal "10.0.0.2"] ].

Definition mkTypedPod (name ip node : string) : Typed.Pod :=
  {| Typed.pod_Name := name;
     Typed.Spec := {| Typed.spec_NodeName := node |};
     Typed.Status := {| Typed.status_PodIP := ip |} |}.

Definition typed_pods : list Typed.Pod :=
  [ mkTypedPod "web-0" "10.1.0.5" "h1";
    mkTypedPod "web-1" "" "";
    mkTypedPod "web-2" "10.1.0.6" "h3" ].

(** An environment in which the default namespace holds [typed_pods] and
    the namespace "dev" holds one more pod. *)
Definition env_ok : Typed.Env :=
  {| Typed.KUBECONFIG := "/etc/kube/config";
     Typed.UserHomeDir := inr "/root";
     Typed.BuildConfigFromFlags := fun _ => None;
     Typed.NewForConfig := None;
     Typed.PodsList := fun ns =>
       if decide (ns = "default") then inr typed_pods
       else inr (typed_pods ++ [mkTypedPod "api-0" "10.1.0.8" "h2"])%list;
     Typed.NodesList := inr nodes |}.

Definition env_pods_fail : Typed.Env :=
  {| Typed.KUBECONFIG := "/etc/kube/config";
     Typed.UserHomeDir := inr "/root";
     Typed.BuildConfigFromFlags := fun _ => None;
     Typed.NewForConfig := None;
     Typed.PodsList := fun _ => inl "connection refused";
     Typed.NodesList := inr nodes |}.

Definition env_nodes_fail : Typed.Env :=
  {| Typed.KUBECONFIG := "";
     Typed.UserHomeDir := inr "/root";
     Typed.BuildConfigFromFlags := fun _ => None;
     Typed.NewForConfig := None;
     Typed.PodsList := fun _ => inr typed_pods;
     Typed.NodesList := inl "forbidden" |}.

(** An environment without KUBECONFIG and without a home directory. *)
Definition env_no_home : Typed.Env :=
  {| Typed.KUBECONFIG := "";
     Typed.UserHomeDir := inl "$HOME is not defined";
     Typed.BuildConfigFromFlags := fun _ => None;
     Typed.NewForConfig := None;
     Typed.PodsList := fun _ => inr typed_pods;
     Typed.NodesList := inr nodes |}.

(** An environment without KUBECONFIG whose home directory is the root, and
    in which the one kubeconfig that loads is "/.kube/config". *)
Definition env_home_root : Typed.Env :=
  {| Typed.KUBECONFIG := "";
     Typed.UserHomeDir := inr "/";
     Typed.BuildConfigFromFlags := fun path =>
       if decide (path = "/.kube/config") then None
       else Some "no such file or directory";
     Typed.NewForConfig := None;
     Typed.PodsList := fun _ => inr typed_pods;
     Typed.NodesList := inr nodes |}.


End Samples.

(** * Properties *)

Section Properties.

(** The properties hold whatever the case table of [unicode] is. *)
Context {tables : unicode.CaseTable}.

(** ** Strings *)

Section StringFacts.

Import GoStrings.

Lemma HasPrefix_spec (s prefix : string) :
  HasPrefix s prefix = true <-> exists post, s = prefix ++ post.
Proof.
  revert s; induction prefix as [|p prefix IH]; intros s; simpl.
  - split; [intros _; now exists s | reflexivity].
  - destruct s as [|c s].
    + split; [discriminate | intros [post H]; discriminate].
    + destruct (Ascii.eqb_spec p c) as [->|Hne].
      * rewrite IH. split; intros [post H]; exists post.
        -- simpl. now rewrite H.
        -- simpl in H. now injection H.
      * split; [discriminate|].
        intros [post H]. simpl in H. injection H as H1 _. congruence.
Qed.

Lemma Contains_spec (s substr : string) :
  Contains s substr = true <-> exists pre post, s = pre ++ substr ++ post.
Proof.
  split.
  - induction s as [|c s IH]; simpl; rewrite orb_true_iff.
    + intros [H|H]; [|discriminate].
      apply HasPrefix_spec in H as [post H]. now exists "", post.
    + intros [H|H].
      * apply HasPrefix_spec in H as [post H]. now exists "", post.
      * destruct (IH H) as (pre & post & ->). now exists (String c pre), post.
  - intros (pre & post & ->).
    induction pre as [|c pre IH]; simpl.
    + assert (H : HasPrefix (substr ++ post) substr = true)
        by (apply HasPrefix_spec; now exists post).
      destruct (substr ++ post); simpl; rewrite H; reflexivity.
    + rewrite IH. apply orb_true_r.
Qed.

(** Every string contains the empty string. *)
Lemma Contains_empty (s : string) : Contains s "" = true.
Proof. destruct s; reflexivity. Qed.

End StringFacts.

Example ToLower_ex : GoStrings.ToLower "Nginx-A1" = "nginx-a1".
Proof. reflexivity. Qed.

Example Contains_ex :
  GoStrings.Contains "my-nginx-0" "nginx" = true /\
  GoStrings.Contains "my-nginx-0" "nginy" = false /\
  GoStrings.Contains "" "" = true.
Proof. repeat split. Qed.

(** ** The walk over the listed objects *)

Section BuilderWalk.

Import Builder.

Variable searchTerm : string.

Lemma visitFn_matches acc obj :
  visitFn searchTerm acc obj None =
  match convertObjectToPodInfo obj with
  | Ok podInfo =>
      Ok (if matches searchTerm podInfo then (acc ++ [podInfo])%list else acc)
  | Err _ => Ok acc
  | Panic msg => Panic msg
  end.
Proof.
  unfold visitFn, matches.
  destruct (convertObjectToPodInfo obj) as [podInfo| |]; try reflexivity.
  now destruct (GoStrings.Contains _ _).
Qed.

Lemma visit_objects_app acc objs1 objs2 :
  visit_objects (visitFn searchTerm) acc (objs1 ++ objs2)%list =
  match visit_objects (visitFn searchTerm) acc objs1 with
  | Ok acc' => visit_objects (visitFn searchTerm) acc' objs2
  | Err e => Err e
  | Panic msg => Panic msg
  end.
Proof.
  revert acc; induction objs1 as [|o objs1 IH]; intros acc;
    cbn [visit_objects app].
  - reflexivity.
  - destruct (visitFn searchTerm acc o None) as [acc'|e|msg];
      [apply IH | reflexivity | reflexivity].
Qed.

(** Without a panic the walk returns the matching records of the objects that
    convert, appended in the order of the listing. *)
Lemma visit_objects_ok acc objs :
  Forall (fun o => panics o = false) objs ->
  visit_objects (visitFn searchTerm) acc objs =
  Ok (acc ++ filter (fun r => matches searchTerm r) (converted objs))%list.
Proof.
  intros Hall; revert acc.
  induction Hall as [|o objs Ho _ IH]; intros acc.
  - simpl. now rewrite app_nil_r.
  - cbn [visit_objects]. rewrite visitFn_matches.
    unfold converted, panics in *. cbn [omap list_omap].
    destruct (convertObjectToPodInfo o) as [podInfo|e|msg];
      [| apply IH | discriminate].
    rewrite IH, filter_cons.
    destruct (matches searchTerm podInfo) eqn:Hm.
    + rewrite decide_True by exact I. now rewrite <- app_assoc.
    + rewrite decide_False by (intros []). reflexivity.
Qed.

(** A panic of one conversion ends the walk with a panic. *)
Lemma visit_objects_panics acc objs :
  Exists (fun o => panics o = true) objs ->
  exists msg, visit_objects (visitFn searchTerm) acc objs = Panic msg.
Proof.
  intros Hex; revert acc.
  induction Hex as [o objs Ho|o objs _ IH]; intros acc;
    cbn [visit_objects]; rewrite visitFn_matches; unfold panics in *.
  - destruct (convertObjectToPodInfo o) as [| |msg]; try discriminate.
    now exists msg.
  - destruct (convertObjectToPodInfo o) as [podInfo|e|msg]; eauto.
Qed.

(** An object that lacks a section is an error of the conversion, which the
    callback swallows. *)
Lemma lacks_section_convert obj :
  lacks_section obj = true ->
  convertObjectToPodInfo obj =
  Err "object does not contain 'spec' or 'status' in expected format".
Proof.
  unfold lacks_section, convertObjectToPodInfo, content_of.
  destruct obj as [content|[err|content]]; try discriminate;
    destruct (as_map (index content "spec")),
             (as_map (index content "status")); (discriminate || reflexivity).
Qed.

Lemma lacks_section_skipped acc obj :
  lacks_section obj = true -> visitFn searchTerm acc obj None = Ok acc.
Proof.
  intros H. rewrite visitFn_matches. now rewrite (lacks_section_convert _ H).
Qed.

End BuilderWalk.

(** ** Traces *)

Lemma listing_calls_app (t1 t2 : list Event) :
  listing_calls (t1 ++ t2)%list = (listing_calls t1 ++ listing_calls t2)%list.
Proof.
  induction t1 as [|[] t1 IH]; simpl; congruence.
Qed.

Lemma listing_calls_stdout {A} (style : Style) (f : A -> string) (l : list A) :
  listing_calls (map (fun x => Stdout style (f x)) l) = [].
Proof. induction l; simpl; auto. Qed.

Lemma printColoredTable_no_listing (pods : list Builder.PodInfo) :
  listing_calls (Builder.printColoredTable pods) = [].
Proof.
  unfold Builder.printColoredTable.
  rewrite !listing_calls_app, listing_calls_stdout. reflexivity.
Qed.

Lemma printPodInfo_no_listing (podInfos : list Typed.PodInfo) :
  listing_calls (Typed.printPodInfo podInfos) = [].
Proof.
  unfold Typed.printPodInfo.
  rewrite !listing_calls_app, listing_calls_stdout. reflexivity.
Qed.

(** Whatever the cluster answers, a run of [runFunc] that is given a pattern
    makes one listing call, for the scope chosen by the flag. *)
Lemma runFunc_listing_calls cluster namespaceFlag p rest :
  listing_calls (fst (Builder.runFunc cluster namespaceFlag (p :: rest))) =
  [ListPods (Builder.builder_scope namespaceFlag)].
Proof.
  unfold Builder.runFunc.
  destruct (Builder.Visit _ _) as [[|r rs]|e|msg]; try reflexivity.
  cbn [fst listing_calls]. now rewrite printColoredTable_no_listing.
Qed.

(** ** The filter of [runFunc] *)

Section BuilderClaims.

Import Builder.

(** The records that the walk retains are what the run reports: the table
    of these records, or the one line that says there is none. *)
Lemma runFunc_prints_retained cluster namespaceFlag p rest r :
  Visit (pods_of cluster (builder_scope namespaceFlag)) (visitFn p) = Ok r ->
  runFunc cluster namespaceFlag (p :: rest) =
  (ListPods (builder_scope namespaceFlag) ::
     match r with
     | [] => [Stdout Plain ("No pods found matching the pattern: " ++ p ++ nl)]
     | _ :: _ => printColoredTable r
     end,
   Ok tt).
Proof.
  intros H. unfold runFunc. rewrite H. now destruct r.
Qed.

(** C1, amended: when no conversion panics, the walk of [runFunc] returns a
    result list, and a record is in it if and only if it is the record of an
    object of the listing that converts and the lowercase form of its name
    contains the lowercase form of the pattern; the same holds name by name,
    and the result keeps the order of the listing. *)
Theorem runFunc_retains_matching_converted (p : string) (objs : list Object) :
  Forall (fun o => panics o = false) objs ->
  exists r,
    Visit (inr objs) (visitFn p) = Ok r /\
    r = filter (fun podInfo => matches p podInfo) (converted objs) /\
    (forall podInfo,
        podInfo ∈ r <->
        podInfo ∈ converted objs /\
        GoStrings.Contains (GoStrings.ToLower (Name podInfo))
                           (GoStrings.ToLower p) = true) /\
    (forall n,
        n ∈ Name <$> r <->
        n ∈ Name <$> converted objs /\
        GoStrings.Contains (GoStrings.ToLower n) (GoStrings.ToLower p) = true).
Proof.
  intros Hall.
  exists (filter (fun podInfo => matches p podInfo) (converted objs)).
  split; [exact (visit_objects_ok p [] objs Hall) | split; [reflexivity|]].
  assert (Hmem : forall podInfo,
             podInfo ∈ filter (fun x => matches p x) (converted objs) <->
             podInfo ∈ converted objs /\
             GoStrings.Contains (GoStrings.ToLower (Name podInfo))
                                (GoStrings.ToLower p) = true).
  { intros podInfo. rewrite list_elem_of_filter, Is_true_true.
    unfold matches. tauto. }
  split; [exact Hmem|].
  intros n. rewrite !list_elem_of_fmap. split.
  - intros (x & -> & Hx). apply Hmem in Hx as [Hc Hm]. eauto.
  - intros [(x & -> & Hx) Hm]. exists x. split; [reflexivity|].
    apply Hmem. auto.
Qed.

(** ** The argument check *)

(** C3, amended: when the positional argument is missing, [runFunc] returns
    the usage error without any listing call and the process exits with
    status 1; when an argument is given, whatever it is, the pods of the
    scope are listed. *)
Theorem missing_pattern_rejected_before_listing
    (cluster : Cluster) (namespaceFlag : string) :
  runFunc cluster namespaceFlag [] = ([], Err usage_error) /\
  Execute cluster namespaceFlag [] =
    ([Stdout Plain (usage_error ++ nl)], 1%nat) /\
  forall p rest,
    listing_calls (fst (runFunc cluster namespaceFlag (p :: rest))) =
    [ListPods (builder_scope namespaceFlag)] /\
    snd (runFunc cluster namespaceFlag (p :: rest)) <> Err usage_error.
Proof.
  split; [reflexivity | split; [reflexivity|]].
  intros p rest. split; [apply runFunc_listing_calls|].
  unfold runFunc.
  destruct (Visit _ _) as [[|r rs]|e|msg]; cbn [snd]; discriminate.
Qed.

(** ** Records that cannot be converted *)

(** C8: an object without a "spec" or a "status" section is skipped
    silently; the walk, and the whole run, go on as if the object were not
    in the listing, and when no other conversion panics the result is the
    list of the matching records of the other objects. *)
Theorem malformed_record_skipped
    (p : string) (objs1 : list Object) (bad : Object) (objs2 : list Object) :
  lacks_section bad = true ->
  Visit (inr (objs1 ++ bad :: objs2)%list) (visitFn p) =
  Visit (inr (objs1 ++ objs2)%list) (visitFn p) /\
  (Forall (fun o => panics o = false) (objs1 ++ objs2)%list ->
   Visit (inr (objs1 ++ bad :: objs2)%list) (visitFn p) =
   Ok (filter (fun r => matches p r) (converted (objs1 ++ objs2)%list))) /\
  (forall cluster cluster' namespaceFlag rest,
      pods_of cluster (builder_scope namespaceFlag) =
        inr (objs1 ++ bad :: objs2)%list ->
      pods_of cluster' (builder_scope namespaceFlag) =
        inr (objs1 ++ objs2)%list ->
      runFunc cluster namespaceFlag (p :: rest) =
      runFunc cluster' namespaceFlag (p :: rest)).
Proof.
  intros Hbad.
  assert (Heq : Visit (inr (objs1 ++ bad :: objs2)%list) (visitFn p) =
                Visit (inr (objs1 ++ objs2)%list) (visitFn p)).
  { unfold Visit. rewrite !visit_objects_app.
    destruct (visit_objects (visitFn p) [] objs1) as [acc|e|msg];
      try reflexivity.
    cbn [visit_objects]. now rewrite lacks_section_skipped. }
  split; [exact Heq | split].
  - intros Hall. rewrite Heq. exact (visit_objects_ok p [] _ Hall).
  - intros cluster cluster' namespaceFlag rest H H'.
    unfold runFunc. now rewrite H, H', Heq.
Qed.

(** ** No match *)

(** C9: when the walk retains no record, the command prints the one line
    "No pods found matching the pattern: " followed by the pattern, returns no
    error, and the process exits with status 0. *)
Theorem no_match_message_exit_zero
    (cluster : Cluster) (namespaceFlag p : string) (rest : list string) :
  Visit (pods_of cluster (builder_scope namespaceFlag)) (visitFn p) = Ok [] ->
  runFunc cluster namespaceFlag (p :: rest) =
    ([ListPods (builder_scope namespaceFlag);
      Stdout Plain ("No pods found matching the pattern: " ++ p ++ nl)],
     Ok tt) /\
  stdout_of (fst (Execute cluster namespaceFlag (p :: rest))) =
    ["No pods found matching the pattern: " ++ p ++ nl] /\
  snd (Execute cluster namespaceFlag (p :: rest)) = 0%nat.
Proof.
  intros H. unfold Execute, runFunc. rewrite H. repeat split.
Qed.

(** ** The empty pattern *)

(** C10: the empty string passes the argument check (the pods are listed
    and the usage error is not returned), and when no conversion panics the
    filter retains the record of every object that converts. *)
Theorem empty_pattern_matches_all
    (cluster : Cluster) (namespaceFlag : string) (rest : list string)
    (objs : list Object) :
  pods_of cluster (builder_scope namespaceFlag) = inr objs ->
  Forall (fun o => panics o = false) objs ->
  Visit (inr objs) (visitFn "") = Ok (converted objs) /\
  runFunc cluster namespaceFlag ("" :: rest) =
    (ListPods (builder_scope namespaceFlag) ::
       match converted objs with
       | [] => [Stdout Plain ("No pods found matching the pattern: " ++ nl)]
       | _ :: _ => printColoredTable (converted objs)
       end,
     Ok tt).
Proof.
  intros Hlist Hall.
  assert (Hall_match :
            filter (fun r => matches "" r) (converted objs) = converted objs).
  { induction (converted objs) as [|r l IH]; [reflexivity|].
    rewrite filter_cons, IH. apply decide_True.
    unfold matches. cbn [GoStrings.ToLower].
    apply Is_true_true, Contains_empty. }
  assert (Hvisit : Visit (inr objs) (visitFn "") = Ok (converted objs)).
  { unfold Visit. rewrite visit_objects_ok by exact Hall.
    now rewrite Hall_match. }
  split; [exact Hvisit|].
  unfold runFunc. rewrite Hlist, Hvisit.
  now destruct (converted objs).
Qed.

(** ** Instances that are not bound to a host *)

(** C2 does not hold of [convertObjectToPodInfo]: the node name and the
    host address are read with unchecked type assertions, so an instance
    whose "nodeName" is absent, or whose "hostIP" is absent, makes the
    conversion panic.  No record is produced, the walk over any listing that
    holds the instance ends in the panic, and the process ends with status 2
    without printing a table. *)
Theorem absent_host_fields_panic (content spec status : gmap string Value) :
  index content "spec" = VMap spec ->
  index content "status" = VMap status ->
  spec !! "nodeName" = None \/
  ((exists nodeName, spec !! "nodeName" = Some (VString nodeName)) /\
   status !! "hostIP" = None) ->
  convertObjectToPodInfo (Unstructured content) =
    Panic "interface conversion: interface {} is nil, not string" /\
  (forall p objs,
      Unstructured content ∈ objs ->
      exists msg, Visit (inr objs) (visitFn p) = Panic msg) /\
  (forall cluster namespaceFlag p rest objs,
      pods_of cluster (builder_scope namespaceFlag) = inr objs ->
      Unstructured content ∈ objs ->
      Execute cluster namespaceFlag (p :: rest) =
      ([ListPods (builder_scope namespaceFlag)], 2%nat)).
Proof.
  intros Hspec Hstatus Habsent.
  assert (Hconv : convertObjectToPodInfo (Unstructured content) =
                  Panic "interface conversion: interface {} is nil, not string").
  { unfold convertObjectToPodInfo. rewrite Hspec, Hstatus. cbn [as_map].
    cbv zeta. unfold index.
    destruct Habsent as [Hnode|[[nodeName Hnode] Hhost]].
    - now rewrite Hnode.
    - rewrite Hnode. cbn [default assert_string]. now rewrite Hhost. }
  assert (Hwalk : forall p objs,
             Unstructured content ∈ objs ->
             exists msg, Visit (inr objs) (visitFn p) = Panic msg).
  { intros p objs Hin. apply visit_objects_panics, Exists_exists.
    exists (Unstructured content). split; [exact Hin|].
    unfold panics. now rewrite Hconv. }
  split; [exact Hconv | split; [exact Hwalk|]].
  intros cluster namespaceFlag p rest objs Hlist Hin.
  destruct (Hwalk p objs Hin) as [msg Hmsg].
  unfold Execute, runFunc. now rewrite Hlist, Hmsg.
Qed.

End BuilderClaims.

(** ** The node address map and the join of the typed-client variant *)

Section TypedJoin.

Import Typed.

(** X13: the inner loop stops at the first address of type "InternalIP":
    it returns an address exactly when the list splits into entries of other
    types, an "InternalIP" entry with that address, and a rest. *)
Lemma firstInternalIP_spec (addrs : list NodeAddress) (ip : string) :
  firstInternalIP addrs = Some ip <->
  exists pre addr post,
    addrs = (pre ++ addr :: post)%list /\
    Forall (fun a => addr_Type a <> "InternalIP") pre /\
    addr_Type addr = "InternalIP" /\ Address addr = ip.
Proof.
  induction addrs as [|a addrs IH]; simpl.
  - split; [discriminate|].
    intros (pre & addr & post & H & _). destruct pre; discriminate.
  - destruct (decide (addr_Type a = "InternalIP")) as [Ha|Ha].
    + split.
      * intros [= <-]. exists [], a, addrs. repeat split; auto.
      * intros (pre & addr & post & H & Hpre & Haddr & Hip).
        destruct pre as [|b pre]; simpl in H; injection H as -> ->.
        -- now rewrite Hip.
        -- now inversion Hpre.
    + rewrite IH. split.
      * intros (pre & addr & post & -> & Hpre & Haddr & Hip).
        exists (a :: pre), addr, post. repeat split; auto.
      * intros (pre & addr & post & H & Hpre & Haddr & Hip).
        destruct pre as [|b pre]; simpl in H; injection H as -> ->.
        -- contradiction.
        -- exists pre, addr, post. inversion Hpre. repeat split; auto.
Qed.

Lemma firstInternalIP_none (addrs : list NodeAddress) :
  firstInternalIP addrs = None <->
  Forall (fun a => addr_Type a <> "InternalIP") addrs.
Proof.
  induction addrs as [|a addrs IH]; simpl.
  - split; auto.
  - destruct (decide (addr_Type a = "InternalIP")) as [Ha|Ha].
    + split; [discriminate | now inversion 1].
    + rewrite IH. split; [now constructor | now inversion 1].
Qed.

Lemma buildNodeIPMap_foldl (nodes : list Node) :
  buildNodeIPMap nodes = foldl addNode ∅ nodes.
Proof. reflexivity. Qed.

Lemma foldl_addNode_other (m : gmap string string) (nodes : list Node)
    (h : string) :
  h ∉ node_Name <$> nodes -> foldl addNode m nodes !! h = m !! h.
Proof.
  revert m; induction nodes as [|n nodes IH]; intros m Hh; simpl.
  - reflexivity.
  - rewrite fmap_cons, not_elem_of_cons in Hh. destruct Hh as [Hne Hh].
    rewrite IH by exact Hh. unfold addNode.
    destruct (firstInternalIP _); [|reflexivity].
    now rewrite lookup_insert_ne.
Qed.

Lemma foldl_addNode_member (m : gmap string string) (nodes : list Node)
    (node : Node) :
  NoDup (node_Name <$> nodes) ->
  node ∈ nodes ->
  foldl addNode m nodes !! node_Name node =
  match firstInternalIP (Addresses (node_Status node)) with
  | Some ip => Some ip
  | None => m !! node_Name node
  end.
Proof.
  revert m; induction nodes as [|n nodes IH]; intros m Hnd Hin.
  - inversion Hin.
  - rewrite fmap_cons in Hnd. apply NoDup_cons in Hnd as [Hfresh Hnd].
    cbn [foldl]. apply elem_of_cons in Hin as [->|Hin].
    + rewrite foldl_addNode_other by exact Hfresh. unfold addNode.
      destruct (firstInternalIP _); [apply lookup_insert_eq | reflexivity].
    + rewrite IH by assumption.
      destruct (firstInternalIP (Addresses (node_Status node)));
        [reflexivity|].
      unfold addNode. destruct (firstInternalIP _); [|reflexivity].
      apply lookup_insert_ne. intros Heq. apply Hfresh. rewrite Heq.
      apply list_elem_of_fmap. now exists node.
Qed.

(** The loop over the pods appends the record of each pod that is kept. *)
Lemma joinPods_omap (nodeIPMap : gmap string string) (pods : list Pod) :
  joinPods nodeIPMap pods = omap (joinPod nodeIPMap) pods.
Proof.
  unfold joinPods.
  assert (H : forall acc,
             foldl (fun podInfos pod =>
                      match joinPod nodeIPMap pod with
                      | Some podInfo => (podInfos ++ [podInfo])%list
                      | None => podInfos
                      end) acc pods =
             (acc ++ omap (joinPod nodeIPMap) pods)%list).
  { induction pods as [|pod pods IH]; intros acc; cbn [foldl omap list_omap].
    - now rewrite app_nil_r.
    - rewrite IH. destruct (joinPod nodeIPMap pod); [|reflexivity].
      now rewrite <- app_assoc. }
  apply H.
Qed.

Lemma joinPod_Some (nodeIPMap : gmap string string) (pod : Pod)
    (podInfo : PodInfo) :
  joinPod nodeIPMap pod = Some podInfo ->
  status_PodIP (Status pod) <> "" /\
  Name podInfo = pod_Name pod /\
  IP podInfo = status_PodIP (Status pod) /\
  NodeName podInfo = spec_NodeName (Spec pod) /\
  NodeIP podInfo = default "" (nodeIPMap !! spec_NodeName (Spec pod)).
Proof.
  unfold joinPod. destruct (decide _) as [|Hip]; [discriminate|].
  destruct (nodeIPMap !! _); intros [= <-]; repeat split; auto.
Qed.

(** X17: an instance with a pod IP that is bound to a host that the map
    does not hold, or bound to no host, is still joined, with the empty
    string as host IP. *)
Lemma joinPod_absent_host (nodeIPMap : gmap string string) (pod : Pod) :
  status_PodIP (Status pod) <> "" ->
  nodeIPMap !! spec_NodeName (Spec pod) = None ->
  joinPod nodeIPMap pod =
  Some {| Name := pod_Name pod; IP := status_PodIP (Status pod);
          NodeName := spec_NodeName (Spec pod); NodeIP := "" |}.
Proof.
  intros Hip Habs. unfold joinPod.
  rewrite decide_False by exact Hip. now rewrite Habs.
Qed.

(** With a client that is ready, the run reaches the two listing calls. *)
Lemma getPodAndNodeInfo_ready (env : Env) :
  client_ready env ->
  getPodAndNodeInfo env =
  match PodsList env "default" with
  | inl err =>
      ([ListPods (NamespaceParam "default")],
       Err ("error listing pods: " ++ err))
  | inr pods =>
      match NodesList env with
      | inl err =>
          ([ListPods (NamespaceParam "default"); ListNodes],
           Err ("error listing nodes: " ++ err))
      | inr nodes =>
          ([ListPods (NamespaceParam "default"); ListNodes],
           Ok (joinPods (buildNodeIPMap nodes) pods))
      end
  end.
Proof.
  intros (Hpath & Hcfg & Hclient). unfold getPodAndNodeInfo.
  rewrite Hclient.
  destruct (decide (KUBECONFIG env = "")) as [Hempty|Hset].
  - destruct Hpath as [Hne|[homeDir Hhome]]; [contradiction|].
    rewrite Hhome. now rewrite Hcfg.
  - now rewrite Hcfg.
Qed.

(** The command of this variant does not read its arguments. *)
Lemma Run_ignores_args (env : Env) (args1 args2 : list string) :
  Run env args1 = Run env args2.
Proof. reflexivity. Qed.

End TypedJoin.

(** ** Claims on the host address index and on the listing calls *)

Section JoinClaims.

Import Typed.


(** ** Instances without an address *)

(** C4, amended: in the resource-builder variant an instance without a
    "podIP" (absent, or the empty string), whose sections are present and
    whose "nodeName" and "hostIP" are strings, converts without an error to a
    record with the empty string as instance IP, which the walk appends when
    the name matches; in the typed-client variant an instance whose pod IP
    is empty is passed over: no record and no error. *)
Theorem absent_pod_ip :
  (forall (content spec status : gmap string Builder.Value)
          (nodeName hostIP : string),
      Builder.index content "spec" = Builder.VMap spec ->
      Builder.index content "status" = Builder.VMap status ->
      status !! "podIP" = None \/
      status !! "podIP" = Some (Builder.VString "") ->
      spec !! "nodeName" = Some (Builder.VString nodeName) ->
      status !! "hostIP" = Some (Builder.VString hostIP) ->
      let record :=
        {| Builder.Name := Builder.GetName content;
           Builder.Namespace := Builder.GetNamespace content;
           Builder.IP := "";
           Builder.NodeName := nodeName;
           Builder.NodeIP := hostIP |} in
      Builder.convertObjectToPodInfo (Builder.Unstructured content) =
        Ok record /\
      forall p acc,
        Builder.matches p record = true ->
        Builder.visitFn p acc (Builder.Unstructured content) None =
        Ok (acc ++ [record])%list) /\
  (forall (nodeIPMap : gmap string string) (pod : Pod),
      status_PodIP (Status pod) = "" ->
      joinPod nodeIPMap pod = None /\
      forall pods1 pods2,
        joinPods nodeIPMap (pods1 ++ pod :: pods2)%list =
        joinPods nodeIPMap (pods1 ++ pods2)%list).
Proof.
  split.
  - intros content spec status nodeName hostIP Hspec Hstatus Hip Hnode Hhost
           record.
    assert (Hconv : Builder.convertObjectToPodInfo
                      (Builder.Unstructured content) = Ok record).
    { unfold Builder.convertObjectToPodInfo.
      rewrite Hspec, Hstatus. cbn [Builder.as_map]. cbv zeta.
      unfold Builder.index. rewrite Hnode, Hhost.
      destruct Hip as [-> | ->]; reflexivity. }
    split; [exact Hconv|].
    intros p acc Hm. rewrite visitFn_matches, Hconv. now rewrite Hm.
  - intros nodeIPMap pod Hip.
    assert (Hnone : joinPod nodeIPMap pod = None).
    { unfold joinPod. now rewrite decide_True by exact Hip. }
    split; [exact Hnone|].
    intros pods1 pods2. rewrite !joinPods_omap, !omap_app.
    cbn [omap list_omap]. now rewrite Hnone.
Qed.

(** ** Failing listing calls *)

(** C6: when the pod listing of [runFunc] fails, the run returns the one
    error "failed to retrieve pods: " followed by the cause, prints no table,
    and the process prints that error and exits with status 1.  When a
    listing of [getPodAndNodeInfo] fails, it returns no records but the one
    error "error listing pods: " or "error listing nodes: " followed by the
    cause, and the command prints that error, no table, and exits with
    status 1.  The two messages are never equal. *)
Theorem listing_failure_fails_whole_query :
  (forall cluster namespaceFlag p rest e,
      Builder.pods_of cluster (Builder.builder_scope namespaceFlag) = inl e ->
      Builder.runFunc cluster namespaceFlag (p :: rest) =
        ([ListPods (Builder.builder_scope namespaceFlag)],
         Err ("failed to retrieve pods: " ++ e)) /\
      Builder.Execute cluster namespaceFlag (p :: rest) =
        ([ListPods (Builder.builder_scope namespaceFlag);
          Stdout Plain ("failed to retrieve pods: " ++ e ++ nl)],
         1%nat)) /\
  (forall env args e,
      client_ready env ->
      PodsList env "default" = inl e ->
      getPodAndNodeInfo env =
        ([ListPods (NamespaceParam "default")],
         Err ("error listing pods: " ++ e)) /\
      Run env args =
        ([Stdout Plain ("Connecting to Kubernetes cluster..." ++ nl);
          ListPods (NamespaceParam "default");
          Stdout Plain ("Error connecting to Kubernetes cluster: " ++
                        "error listing pods: " ++ e ++ nl)],
         1%nat)) /\
  (forall env args pods e,
      client_ready env ->
      PodsList env "default" = inr pods ->
      NodesList env = inl e ->
      getPodAndNodeInfo env =
        ([ListPods (NamespaceParam "default"); ListNodes],
         Err ("error listing nodes: " ++ e)) /\
      Run env args =
        ([Stdout Plain ("Connecting to Kubernetes cluster..." ++ nl);
          ListPods (NamespaceParam "default"); ListNodes;
          Stdout Plain ("Error connecting to Kubernetes cluster: " ++
                        "error listing nodes: " ++ e ++ nl)],
         1%nat)) /\
  (forall e1 e2 : string,
      "error listing pods: " ++ e1 <> "error listing nodes: " ++ e2).
Proof.
  split; [|split; [|split]].
  - intros cluster namespaceFlag p rest e Hlist.
    unfold Builder.Execute, Builder.runFunc, Builder.Visit.
    now rewrite Hlist.
  - intros env args e Hready Hpods.
    unfold Run. rewrite getPodAndNodeInfo_ready by exact Hready.
    now rewrite Hpods.
  - intros env args pods e Hready Hpods Hnodes.
    unfold Run. rewrite getPodAndNodeInfo_ready by exact Hready.
    now rewrite Hpods, Hnodes.
  - discriminate.
Qed.

(** ** The scope of the pod listing *)

(** C7, amended: in the resource-builder variant a namespace flag that is
    not empty makes the run list the pods of that one namespace, and an
    omitted (empty) flag makes it list the pods of all namespaces; this is
    the only listing call, and the run depends on the cluster through the
    answer to it alone.  The typed-client variant has no flag and always
    lists the pods of the namespace "default". *)
Theorem namespace_scope_of_listing :
  (forall cluster ns p rest,
      ns <> "" ->
      listing_calls (fst (Builder.runFunc cluster ns (p :: rest))) =
      [ListPods (NamespaceParam ns)]) /\
  (forall cluster p rest,
      listing_calls (fst (Builder.runFunc cluster "" (p :: rest))) =
      [ListPods AllNamespaces]) /\
  (forall cluster cluster' namespaceFlag args,
      Builder.pods_of cluster (Builder.builder_scope namespaceFlag) =
      Builder.pods_of cluster' (Builder.builder_scope namespaceFlag) ->
      Builder.runFunc cluster namespaceFlag args =
      Builder.runFunc cluster' namespaceFlag args) /\
  (forall env,
      client_ready env ->
      exists calls,
        listing_calls (fst (getPodAndNodeInfo env)) =
        ListPods (NamespaceParam "default") :: calls /\
        (calls = [] \/ calls = [ListNodes])).
Proof.
  repeat split.
  - intros cluster ns p rest Hns. rewrite runFunc_listing_calls.
    unfold Builder.builder_scope. now rewrite decide_True by exact Hns.
  - intros cluster p rest. now rewrite runFunc_listing_calls.
  - intros cluster cluster' namespaceFlag args Heq.
    unfold Builder.runFunc. destruct args as [|p rest]; [reflexivity|].
    now rewrite Heq.
  - intros env Hready. rewrite getPodAndNodeInfo_ready by exact Hready.
    destruct (PodsList env "default") as [e|pods].
    + exists []. split; [reflexivity | now left].
    + exists [ListNodes]. split; [|now right].
      now destruct (NodesList env).
Qed.

End JoinClaims.

(** * Further properties of the resource-builder variant *)

(** ** The outcomes of the conversion *)

Section ConversionOutcomes.
Import Builder.

Lemma convert_Structured_content (c : gmap string Value) :
  convertObjectToPodInfo (Structured (inr c)) =
  convertObjectToPodInfo (Unstructured c).
Proof. reflexivity. Qed.

Lemma convert_with_sections (c spec status : gmap string Value) :
  c !! "spec" = Some (VMap spec) ->
  c !! "status" = Some (VMap status) ->
  convertObjectToPodInfo (Unstructured c) =
  match assert_string (index spec "nodeName") with
  | Ok nodeName =>
      match assert_string (index status "hostIP") with
      | Ok hostIP =>
          Ok {| Name := GetName c;
                Namespace := GetNamespace c;
                IP := default "" (as_string (index status "podIP"));
                NodeName := nodeName;
                NodeIP := hostIP |}
      | Err e => Err e
      | Panic msg => Panic msg
      end
  | Err e => Err e
  | Panic msg => Panic msg
  end.
Proof.
  intros Hspec Hstatus. unfold convertObjectToPodInfo, index at 1 2.
  now rewrite Hspec, Hstatus.
Qed.

Lemma lacks_section_iff (obj : Object) :
  lacks_section obj = true <->
  exists c, content_of obj = Some c /\
            ((forall m, c !! "spec" <> Some (VMap m)) \/
             (forall m, c !! "status" <> Some (VMap m))).
Proof.
  unfold lacks_section, index.
  destruct (content_of obj) as [c|]; [|split; [discriminate | intros (c & H & _); discriminate]].
  split.
  - intros H. exists c. split; [reflexivity|].
    destruct (c !! "spec") as [vs|]; [|left; intros ? Heq; discriminate Heq].
    destruct vs; try (left; intros ? Heq; discriminate Heq).
    destruct (c !! "status") as [vt|];
      [|right; intros ? Heq; discriminate Heq].
    destruct vt; try (right; intros ? Heq; discriminate Heq).
    discriminate H.
  - intros (c' & [= <-] & [H|H]).
    + destruct (c !! "spec") as [[| | | | |m]|]; try reflexivity.
      now destruct (H m).
    + destruct (c !! "spec") as [[]|]; try reflexivity.
      destruct (c !! "status") as [[| | | | |m']|]; try reflexivity.
      now destruct (H m').
Qed.

Lemma sections_or_lacks (obj : Object) (c : gmap string Value) :
  content_of obj = Some c ->
  lacks_section obj = true \/
  exists spec status,
    c !! "spec" = Some (VMap spec) /\ c !! "status" = Some (VMap status).
Proof.
  intros Hc. unfold lacks_section, index. rewrite Hc.
  destruct (c !! "spec") as [[]|]; auto.
  destruct (c !! "status") as [[]|]; auto.
  right. eauto.
Qed.

Lemma assert_string_Ok (v : Value) (s : string) :
  assert_string v = Ok s <-> v = VString s.
Proof.
  destruct v; cbn [assert_string]; split; intros H;
    try discriminate H; congruence.
Qed.

Lemma index_VString (m : gmap string Value) (k s : string) :
  index m k = VString s <-> m !! k = Some (VString s).
Proof.
  unfold index. destruct (m !! k) as [v|]; cbn; split; intros H;
    try discriminate; congruence.
Qed.

Lemma content_of_convert (obj : Object) (c : gmap string Value) :
  content_of obj = Some c ->
  convertObjectToPodInfo obj = convertObjectToPodInfo (Unstructured c).
Proof.
  destruct obj as [c'|[e|c']]; intros [= <-]; reflexivity.
Qed.

Theorem convert_ok_iff (obj : Object) (podInfo : PodInfo) :
  convertObjectToPodInfo obj = Ok podInfo <->
  exists content spec status,
    content_of obj = Some content /\
    content !! "spec" = Some (VMap spec) /\
    content !! "status" = Some (VMap status) /\
    spec !! "nodeName" = Some (VString (NodeName podInfo)) /\
    status !! "hostIP" = Some (VString (NodeIP podInfo)) /\
    Name podInfo = GetName content /\
    Namespace podInfo = GetNamespace content /\
    IP podInfo = match status !! "podIP" with
                 | Some (VString ip) => ip
                 | _ => ""
                 end.
Proof.
  split.
  - intros H.
    destruct (content_of obj) as [c|] eqn:Hc.
    2:{ destruct obj as [c|[e|c]]; discriminate. }
    destruct (sections_or_lacks obj c Hc) as [Hl|(spec & status & Hs & Ht)].
    { rewrite (lacks_section_convert obj Hl) in H. discriminate. }
    rewrite (content_of_convert obj c Hc), (convert_with_sections c spec status Hs Ht) in H.
    destruct (assert_string (index spec "nodeName")) as [n| |] eqn:Hn;
      try discriminate.
    destruct (assert_string (index status "hostIP")) as [h| |] eqn:Hh;
      try discriminate.
    injection H as <-. cbn [Name Namespace IP NodeName NodeIP].
    apply assert_string_Ok, index_VString in Hn, Hh.
    exists c, spec, status. repeat split; try assumption.
    unfold index. now destruct (status !! "podIP") as [[]|].
  - intros (c & spec & status & Hc & Hs & Ht & Hn & Hh & Hname & Hns & Hip).
    rewrite (content_of_convert obj c Hc), (convert_with_sections c spec status Hs Ht).
    apply index_VString in Hn, Hh. rewrite Hn, Hh. cbn [assert_string].
    destruct podInfo as [name ns ip nodeName hostIP].
    cbn [Name Namespace IP NodeName NodeIP] in *. subst. f_equal. f_equal.
    unfold index. now destruct (status !! "podIP") as [[]|].
Qed.

Lemma assert_string_not_Err (v : Value) (e : string) :
  assert_string v <> Err e.
Proof. destruct v; discriminate. Qed.

Lemma assert_string_Panic (v : Value) (msg : string) :
  assert_string v = Panic msg <->
  (forall s, v <> VString s) /\
  msg = "interface conversion: interface {} is " ++ type_name v
        ++ ", not string".
Proof.
  destruct v; cbn [assert_string]; split;
    try (intros [= <-]; split; [intros ? Heq; discriminate Heq | reflexivity]);
    try (intros [_ ->]; reflexivity);
    try discriminate.
  intros [H _]. now destruct (H s).
Qed.

(** X2: [convertObjectToPodInfo] returns an error in two cases only: the
    object is not unstructured and cannot be converted (the message wraps the
    converter's error), or its content lacks a "spec" or a "status" map (the
    message says so). *)
Theorem convert_error_iff (obj : Object) (e : string) :
  convertObjectToPodInfo obj = Err e <->
  (exists err,
      obj = Structured (inl err) /\
      e = "failed to convert object to unstructured: " ++ err) \/
  (lacks_section obj = true /\
   e = "object does not contain 'spec' or 'status' in expected format").
Proof.
  split.
  - intros H. destruct (content_of obj) as [c|] eqn:Hc.
    + destruct (sections_or_lacks obj c Hc) as [Hl|(spec & status & Hs & Ht)].
      * right. split; [exact Hl|].
        rewrite (lacks_section_convert obj Hl) in H. congruence.
      * rewrite (content_of_convert obj c Hc),
          (convert_with_sections c spec status Hs Ht) in H.
        destruct (assert_string (index spec "nodeName")) as [n|e'|] eqn:Hn;
          [| now destruct (assert_string_not_Err _ _ Hn) | discriminate H].
        destruct (assert_string (index status "hostIP")) as [h|e'|] eqn:Hh;
          [discriminate H | now destruct (assert_string_not_Err _ _ Hh)
          | discriminate H].
    + destruct obj as [c|[err|c]]; try discriminate Hc.
      left. exists err. split; [reflexivity|].
      cbn in H. congruence.
  - intros [(err & -> & ->)|[Hl ->]]; [reflexivity|].
    exact (lacks_section_convert obj Hl).
Qed.

(** X3: [convertObjectToPodInfo] panics exactly when both sections are
    maps and "nodeName" is not a string, or "nodeName" is a string and
    "hostIP" is not; the panic message names the dynamic type of the value
    found ("nil" for an absent key). *)
Theorem convert_panic_iff (obj : Object) (msg : string) :
  convertObjectToPodInfo obj = Panic msg <->
  exists content spec status bad,
    content_of obj = Some content /\
    content !! "spec" = Some (VMap spec) /\
    content !! "status" = Some (VMap status) /\
    (forall s, bad <> VString s) /\
    msg = "interface conversion: interface {} is " ++ type_name bad
          ++ ", not string" /\
    (bad = index spec "nodeName" \/
     ((exists nodeName, spec !! "nodeName" = Some (VString nodeName)) /\
      bad = index status "hostIP")).
Proof.
  split.
  - intros H. destruct (content_of obj) as [c|] eqn:Hc.
    2:{ destruct obj as [c|[err|c]]; discriminate. }
    destruct (sections_or_lacks obj c Hc) as [Hl|(spec & status & Hs & Ht)].
    { rewrite (lacks_section_convert obj Hl) in H. discriminate. }
    rewrite (content_of_convert obj c Hc),
      (convert_with_sections c spec status Hs Ht) in H.
    destruct (assert_string (index spec "nodeName")) as [n|e'|m] eqn:Hn;
      [| discriminate H |].
    + destruct (assert_string (index status "hostIP")) as [h|e'|m] eqn:Hh;
        try discriminate H.
      injection H as ->. apply assert_string_Panic in Hh as [Hbad Hmsg].
      apply assert_string_Ok, index_VString in Hn.
      exists c, spec, status, (index status "hostIP"). eauto 10.
    + injection H as ->. apply assert_string_Panic in Hn as [Hbad Hmsg].
      exists c, spec, status, (index spec "nodeName"). eauto 10.
  - intros (c & spec & status & bad & Hc & Hs & Ht & Hbad & -> & Hwhich).
    rewrite (content_of_convert obj c Hc),
      (convert_with_sections c spec status Hs Ht).
    destruct Hwhich as [->|[[n Hn] ->]].
    + assert (Hp := proj2 (assert_string_Panic (index spec "nodeName") _)
                      (conj Hbad eq_refl)).
      now rewrite Hp.
    + apply index_VString in Hn. rewrite Hn. cbn [assert_string].
      assert (Hp := proj2 (assert_string_Panic (index status "hostIP") _)
                      (conj Hbad eq_refl)).
      now rewrite Hp.
Qed.

End ConversionOutcomes.

(** ** Strings, again *)

Section MoreStrings.
Import GoStrings.

Lemma string_app_cons (x : ascii) (a b : string) :
  String x a ++ b = String x (a ++ b).
Proof. reflexivity. Qed.

Lemma string_app_assoc (a b c : string) : (a ++ b) ++ c = a ++ b ++ c.
Proof.
  induction a as [|x a IH]; [reflexivity|].
  now rewrite !string_app_cons, IH.
Qed.


(** A substring of a substring is a substring. *)
Lemma Contains_trans (s q p : string) :
  Contains s q = true -> Contains q p = true -> Contains s p = true.
Proof.
  rewrite !Contains_spec.
  intros (a & b & ->) (c & d & ->).
  exists (a ++ c), (d ++ b). now rewrite !string_app_assoc.
Qed.

Lemma Contains_empty_l (p : string) : Contains "" p = true <-> p = "".
Proof.
  split; [|intros ->; reflexivity].
  destruct p; [reflexivity | discriminate].
Qed.

Lemma lower_bytes_eq_empty (p : string) : lower_bytes p = "" <-> p = "".
Proof. destruct p; split; (reflexivity || discriminate). Qed.

Lemma EncodeRune_not_empty (r : N) : utf8.EncodeRune r <> "".
Proof.
  unfold utf8.EncodeRune, utf8.byte_string.
  repeat match goal with
         | |- context [if ?b then _ else _] => destruct b
         end; discriminate.
Qed.

Lemma Map_eq_empty (mapping : N -> N) (p : string) :
  Map mapping p = "" <-> p = "".
Proof.
  split; [|intros ->; reflexivity].
  destruct p as [|c p]; [reflexivity|].
  unfold Map. cbn [utf8.runes].
  destruct (utf8.DecodeRuneInString (String c p)) as [r size].
  cbn [foldr]. intros H.
  destruct (utf8.EncodeRune (mapping r)) as [|x e] eqn:He.
  - now destruct (EncodeRune_not_empty (mapping r)).
  - discriminate H.
Qed.

(** Only the empty string has an empty lowercase form. *)
Lemma ToLower_eq_empty (p : string) : ToLower p = "" <-> p = "".
Proof.
  unfold ToLower. destruct (isASCII p).
  - apply lower_bytes_eq_empty.
  - apply Map_eq_empty.
Qed.



End MoreStrings.

Section WalkMore.
Import Builder.

Lemma visit_objects_ext
    (f g : list PodInfo -> Object -> option string -> Outcome (list PodInfo))
    (acc : list PodInfo) (objs : list Object) :
  (forall acc' o, f acc' o None = g acc' o None) ->
  visit_objects f acc objs = visit_objects g acc objs.
Proof.
  intros Hfg. revert acc.
  induction objs as [|o objs IH]; intros acc; cbn [visit_objects];
    [reflexivity|].
  rewrite Hfg. destruct (g acc o None); auto.
Qed.

(** The records appended by the walk do not depend on what was collected
    before. *)
Lemma visit_objects_acc (p : string) (acc : list PodInfo)
    (objs : list Object) :
  visit_objects (visitFn p) acc objs =
  match visit_objects (visitFn p) [] objs with
  | Ok r => Ok (acc ++ r)%list
  | Err e => Err e
  | Panic msg => Panic msg
  end.
Proof.
  revert acc. induction objs as [|o objs IH]; intros acc;
    cbn [visit_objects].
  - now rewrite app_nil_r.
  - rewrite !visitFn_matches.
    destruct (convertObjectToPodInfo o) as [podInfo|e|msg];
      [| apply IH | reflexivity].
    destruct (matches p podInfo); [|apply IH].
    rewrite (IH (acc ++ [podInfo])%list), (IH ([] ++ [podInfo])%list).
    destruct (visit_objects (visitFn p) [] objs); try reflexivity.
    now rewrite <- app_assoc.
Qed.

End WalkMore.

(** ** The walk and the pattern *)

Section BuilderExtras.
Import Builder.

Lemma GetName_insert_status (content : gmap string Value) (v : Value) :
  GetName (<["status" := v]> content) = GetName content /\
  GetNamespace (<["status" := v]> content) = GetNamespace content.
Proof.
  unfold GetName, GetNamespace, getNestedString.
  now rewrite lookup_insert_ne by discriminate.
Qed.

(** X4: the "podIP" of the status never decides whether the conversion
    succeeds.  Setting it to any value, of any type, leaves an error or a
    panic as it was, and changes a record in its instance IP only, which
    becomes that value when it is a string and the empty string
    otherwise. *)
Theorem podIP_only_sets_IP
    (content spec status : gmap string Value) (v : Value) :
  content !! "spec" = Some (VMap spec) ->
  content !! "status" = Some (VMap status) ->
  convertObjectToPodInfo
    (Unstructured (<["status" := VMap (<["podIP" := v]> status)]> content)) =
  match convertObjectToPodInfo (Unstructured content) with
  | Ok podInfo =>
      Ok {| Name := Name podInfo;
            Namespace := Namespace podInfo;
            IP := default "" (as_string v);
            NodeName := NodeName podInfo;
            NodeIP := NodeIP podInfo |}
  | Err e => Err e
  | Panic msg => Panic msg
  end.
Proof.
  intros Hspec Hstatus.
  rewrite (convert_with_sections content spec status Hspec Hstatus).
  rewrite (convert_with_sections _ spec (<["podIP" := v]> status)).
  - destruct (GetName_insert_status content
                (VMap (<["podIP" := v]> status))) as [-> ->].
    unfold index.
    rewrite lookup_insert_eq, (lookup_insert_ne status "podIP" "hostIP")
      by discriminate.
    destruct (assert_string (default VNil (spec !! "nodeName")));
      try reflexivity.
    destruct (assert_string (default VNil (status !! "hostIP")));
      reflexivity.
  - now rewrite lookup_insert_ne by discriminate.
  - apply lookup_insert_eq.
Qed.

(** X5: an object that is not unstructured and that the converter rejects
    makes [convertObjectToPodInfo] return the wrapped error, and the walk
    goes on as if the object were not in the listing. *)
Theorem unconvertible_object_skipped
    (p err : string) (objs1 objs2 : list Object) :
  convertObjectToPodInfo (Structured (inl err)) =
    Err ("failed to convert object to unstructured: " ++ err) /\
  Visit (inr (objs1 ++ Structured (inl err) :: objs2)%list) (visitFn p) =
  Visit (inr (objs1 ++ objs2)%list) (visitFn p).
Proof.
  split; [reflexivity|].
  unfold Visit. rewrite !visit_objects_app.
  destruct (visit_objects (visitFn p) [] objs1); reflexivity.
Qed.

(** X6: the pattern is matched without regard to case: two patterns with
    the same lowercase form give the same outcome of the walk on every
    listing. *)
Theorem pattern_case_insensitive
    (p p' : string) (listing : string + list Object) :
  GoStrings.ToLower p = GoStrings.ToLower p' ->
  Visit listing (visitFn p) = Visit listing (visitFn p').
Proof.
  intros Heq. destruct listing as [e|objs]; [reflexivity|].
  apply visit_objects_ext. intros acc o.
  unfold visitFn. now rewrite Heq.
Qed.

(** X7: narrowing the pattern narrows the result.  When the lowercase form
    of the pattern [q] contains that of [p] and no conversion panics, the
    records retained for [q] are those retained for [p] that match [q], so
    all of them are among the records retained for [p]. *)
Theorem narrower_pattern_filters_further
    (p q : string) (objs : list Object) :
  Forall (fun o => panics o = false) objs ->
  GoStrings.Contains (GoStrings.ToLower q) (GoStrings.ToLower p) = true ->
  exists rp rq,
    Visit (inr objs) (visitFn p) = Ok rp /\
    Visit (inr objs) (visitFn q) = Ok rq /\
    rq = filter (fun r => matches q r) rp /\
    rq ⊆ rp.
Proof.
  intros Hall Hqp.
  exists (filter (fun r => matches p r) (converted objs)),
         (filter (fun r => matches q r) (converted objs)).
  split; [exact (visit_objects_ok p [] objs Hall)|].
  split; [exact (visit_objects_ok q [] objs Hall)|].
  assert (Himp : forall r : PodInfo, matches q r -> matches p r).
  { intros r. rewrite !Is_true_true. unfold matches. intros Hq.
    exact (Contains_trans _ _ _ Hq Hqp). }
  split.
  - symmetry. now apply list_filter_filter_l.
  - intros r. rewrite !list_elem_of_filter. intros [Hq Hin]. auto.
Qed.

(** X8: the walk over a concatenation of two listings is the walk over
    the first followed by the walk over the second: the retained records are
    appended, and the first error or panic is the outcome. *)
Theorem walk_of_concatenated_listings
    (p : string) (objs1 objs2 : list Object) :
  Visit (inr (objs1 ++ objs2)%list) (visitFn p) =
  match Visit (inr objs1) (visitFn p) with
  | Ok r1 =>
      match Visit (inr objs2) (visitFn p) with
      | Ok r2 => Ok (r1 ++ r2)%list
      | Err e => Err e
      | Panic msg => Panic msg
      end
  | Err e => Err e
  | Panic msg => Panic msg
  end.
Proof.
  unfold Visit. rewrite visit_objects_app.
  destruct (visit_objects (visitFn p) [] objs1) as [r1|e|msg];
    try reflexivity.
  apply visit_objects_acc.
Qed.

(** X9: the first conversion that panics ends the walk with its panic
    message, whatever the records retained before it and whatever the
    objects that follow it. *)
Theorem first_panic_ends_walk
    (p msg : string) (objs1 : list Object) (bad : Object)
    (objs2 : list Object) :
  Forall (fun o => panics o = false) objs1 ->
  convertObjectToPodInfo bad = Panic msg ->
  Visit (inr (objs1 ++ bad :: objs2)%list) (visitFn p) = Panic msg.
Proof.
  intros Hall Hbad. unfold Visit.
  rewrite visit_objects_app, (visit_objects_ok p [] objs1 Hall).
  cbn [visit_objects]. now rewrite visitFn_matches, Hbad.
Qed.

End BuilderExtras.

(** ** The run and its exit status *)

Section BuilderRun.
Import Builder.

Lemma no_panic_or_panic (objs : list Object) :
  Forall (fun o => panics o = false) objs \/
  Exists (fun o => panics o = true) objs.
Proof.
  induction objs as [|o objs [IH|IH]].
  - left. constructor.
  - destruct (panics o) eqn:Ho.
    + right. now constructor.
    + left. now constructor.
  - right. now constructor 2.
Qed.

Lemma no_panic_and_panic (objs : list Object) :
  Forall (fun o => panics o = false) objs ->
  Exists (fun o => panics o = true) objs -> False.
Proof.
  intros Hall Hex. apply Exists_exists in Hex as (o & Hin & Ho).
  rewrite Forall_forall in Hall. specialize (Hall o Hin). congruence.
Qed.

(** X10: the exit status of the process.  It is 0 exactly when a pattern
    is given, the listing succeeds and no conversion panics; 1 exactly when
    the pattern is missing or the listing fails; 2 exactly when a pattern is
    given, the listing succeeds and some conversion panics; and it is never
    anything else. *)
Theorem exit_status_of_Execute
    (cluster : Cluster) (namespaceFlag : string) (args : list string) :
  let status := snd (Execute cluster namespaceFlag args) in
  let listing := pods_of cluster (builder_scope namespaceFlag) in
  (status = 0%nat <->
   args <> [] /\
   exists objs, listing = inr objs /\
                Forall (fun o => panics o = false) objs) /\
  (status = 1%nat <->
   args = [] \/ exists e, listing = inl e) /\
  (status = 2%nat <->
   args <> [] /\
   exists objs, listing = inr objs /\
                Exists (fun o => panics o = true) objs) /\
  (status = 0%nat \/ status = 1%nat \/ status = 2%nat).
Proof.
  cbv zeta. unfold Execute, runFunc.
  destruct args as [|p rest].
  { cbn [snd]. repeat split; try discriminate; auto.
    - intros [H _]. now destruct H.
    - intros [H _]. now destruct H. }
  destruct (pods_of cluster (builder_scope namespaceFlag)) as [e|objs].
  { cbn [Visit snd]. repeat split; try discriminate; eauto.
    - intros (_ & objs & H & _). discriminate H.
    - intros (_ & objs & H & _). discriminate H. }
  destruct (no_panic_or_panic objs) as [Hall|Hex].
  - unfold Visit. rewrite (visit_objects_ok p [] objs Hall).
    assert (Hst : forall r : list PodInfo,
               snd (let (t, o) :=
                      match r with
                      | [] =>
                          ([ListPods (builder_scope namespaceFlag);
                            Stdout Plain
                              ("No pods found matching the pattern: "
                               ++ p ++ nl)], Ok tt)
                      | _ :: _ =>
                          (ListPods (builder_scope namespaceFlag)
                             :: printColoredTable r, Ok tt)
                      end in
                    match o with
                    | Ok _ => (t, 0%nat)
                    | Err e => ((t ++ [Stdout Plain (e ++ nl)])%list, 1%nat)
                    | Panic _ => (t, 2%nat)
                    end) = 0%nat)
      by (intros []; reflexivity).
    rewrite Hst. repeat split; try discriminate; eauto.
    + intros [H|[e H]]; discriminate H.
    + intros (_ & objs' & [= <-] & Hex).
      destruct (no_panic_and_panic objs Hall Hex).
  - destruct (visit_objects_panics p [] objs Hex) as [msg Hmsg].
    unfold Visit. rewrite Hmsg. cbn [snd].
    repeat split; try discriminate; eauto.
    + intros (_ & objs' & [= <-] & Hall).
      destruct (no_panic_and_panic objs Hall Hex).
    + intros [H|[e H]]; discriminate H.
Qed.

Lemma stdout_of_app (t1 t2 : list Event) :
  stdout_of (t1 ++ t2)%list = (stdout_of t1 ++ stdout_of t2)%list.
Proof.
  induction t1 as [|[] t1 IH]; cbn [stdout_of app]; congruence.
Qed.

Lemma stdout_of_lines {A} (style : Style) (f : A -> string) (l : list A) :
  stdout_of (map (fun x => Stdout style (f x)) l) = map f l.
Proof. induction l; cbn [stdout_of map]; congruence. Qed.

(** X11: when the listing succeeds, no conversion panics and some record
    matches, the run prints an empty line, the header, the line of 120
    dashes, one row for each matching record of the objects that convert, in
    the order of the listing, and an empty line. *)
Theorem table_rows_are_retained_records
    (cluster : Cluster) (namespaceFlag p : string) (rest : list string)
    (objs : list Object) :
  pods_of cluster (builder_scope namespaceFlag) = inr objs ->
  Forall (fun o => panics o = false) objs ->
  filter (fun r => matches p r) (converted objs) <> [] ->
  stdout_of (fst (runFunc cluster namespaceFlag (p :: rest))) =
  (nl :: table_row "NAME" "NAMESPACE" "POD IP" "NODE NAME" "NODE IP"
      :: (GoStrings.Repeat "-" 120 ++ nl)%string
      :: map (fun r => table_row (Name r) (Namespace r) (IP r) (NodeName r)
                                 (NodeIP r))
             (filter (fun r => matches p r) (converted objs))
      ++ [nl])%list.
Proof.
  intros Hlist Hall Hne. unfold runFunc, Visit.
  rewrite Hlist, (visit_objects_ok p [] objs Hall). cbn [app].
  destruct (filter _ (converted objs)) as [|r rs] eqn:Hr; [now destruct Hne|].
  cbn [fst stdout_of]. unfold printColoredTable.
  rewrite !stdout_of_app, stdout_of_lines. reflexivity.
Qed.

(** X22: a record whose name is the empty string, as for an object
    without "metadata.name", is retained by the empty pattern and by no
    other. *)
Theorem nameless_record_needs_empty_pattern
    (p : string) (podInfo : PodInfo) :
  Name podInfo = "" ->
  (matches p podInfo = true <-> p = "").
Proof.
  intros Hname. unfold matches. rewrite Hname. cbn [GoStrings.ToLower].
  now rewrite Contains_empty_l, ToLower_eq_empty.
Qed.

End BuilderRun.

(** * Further properties of the typed-client variant *)

(** ** The node address map and the join *)

Section TypedExtras.

Import Typed.

Lemma foldl_addNode_unchanged (m : gmap string string) (nodes : list Node)
    (h : string) :
  Forall (fun n => node_Name n = h ->
                   firstInternalIP (Addresses (node_Status n)) = None) nodes ->
  foldl addNode m nodes !! h = m !! h.
Proof.
  intros Hall. revert m.
  induction Hall as [|n nodes Hn _ IH]; intros m; cbn [foldl];
    [reflexivity|].
  rewrite IH. unfold addNode.
  destruct (firstInternalIP _) as [ip|] eqn:Hip; [|reflexivity].
  apply lookup_insert_ne. intros Heq. discriminate (Hn Heq).
Qed.

Lemma foldl_addNode_Some (m : gmap string string) (nodes : list Node)
    (h ip : string) :
  foldl addNode m nodes !! h = Some ip ->
  m !! h = Some ip \/
  exists node, node ∈ nodes /\ node_Name node = h /\
               firstInternalIP (Addresses (node_Status node)) = Some ip.
Proof.
  revert m. induction nodes as [|n nodes IH]; intros m; cbn [foldl];
    [now left|].
  intros H. destruct (IH _ H) as [Hm|(node & Hin & Hname & Hip)].
  - unfold addNode in Hm.
    destruct (firstInternalIP (Addresses (node_Status n))) as [ip'|] eqn:Hn;
      [|now left].
    destruct (decide (node_Name n = h)) as [Heq|Hne].
    + rewrite Heq, lookup_insert_eq in Hm. injection Hm as ->.
      right. exists n. split; [apply list_elem_of_here | auto].
    + rewrite lookup_insert_ne in Hm by exact Hne. now left.
  - right. exists node. split; [now apply list_elem_of_further | auto].
Qed.

Lemma foldl_addNode_is_Some (m : gmap string string) (nodes : list Node)
    (h : string) :
  is_Some (m !! h) \/
  (exists node, node ∈ nodes /\ node_Name node = h /\
                is_Some (firstInternalIP (Addresses (node_Status node)))) ->
  is_Some (foldl addNode m nodes !! h).
Proof.
  revert m. induction nodes as [|n nodes IH]; intros m; cbn [foldl].
  - intros [H|(node & Hin & _)]; [exact H | inversion Hin].
  - intros [H|(node & Hin & Hname & Hip)]; apply IH.
    + left. unfold addNode. destruct (firstInternalIP _); [|exact H].
      destruct (decide (node_Name n = h)) as [<-|Hne].
      * rewrite lookup_insert_eq. eauto.
      * now rewrite lookup_insert_ne.
    + apply elem_of_cons in Hin as [->|Hin].
      * left. unfold addNode. destruct Hip as [ip ->].
        rewrite <- Hname, lookup_insert_eq. eauto.
      * right. eauto.
Qed.

(** X14: whatever the host list (names may repeat), every entry of the
    node address map is the first "InternalIP" address of some host of the
    list with that name, and a name has an entry exactly when some host of
    the list with that name has an "InternalIP" address. *)
Theorem nodeIPMap_entries (nodes : list Node) (h : string) :
  (forall ip,
      buildNodeIPMap nodes !! h = Some ip ->
      exists node, node ∈ nodes /\ node_Name node = h /\
                   firstInternalIP (Addresses (node_Status node)) = Some ip) /\
  (is_Some (buildNodeIPMap nodes !! h) <->
   exists node, node ∈ nodes /\ node_Name node = h /\
                is_Some (firstInternalIP (Addresses (node_Status node)))).
Proof.
  assert (Hprov : forall ip,
             buildNodeIPMap nodes !! h = Some ip ->
             exists node, node ∈ nodes /\ node_Name node = h /\
               firstInternalIP (Addresses (node_Status node)) = Some ip).
  { intros ip H. apply foldl_addNode_Some in H as [H|H]; [|exact H].
    rewrite lookup_empty in H. discriminate H. }
  split; [exact Hprov|]. split.
  - intros [ip Hip]. destruct (Hprov ip Hip) as (node & Hin & Hname & Hfirst).
    exists node. rewrite Hfirst. eauto.
  - intros H. apply foldl_addNode_is_Some. now right.
Qed.

(** X15: when host names repeat, the last host of the list that has an
    "InternalIP" address gives the entry: a host with such an address,
    followed only by hosts that have another name or no such address, owns
    the entry of its name. *)
Theorem later_host_overrides
    (nodes1 : list Node) (node : Node) (nodes2 : list Node) (ip : string) :
  firstInternalIP (Addresses (node_Status node)) = Some ip ->
  Forall (fun n => node_Name n = node_Name node ->
                   firstInternalIP (Addresses (node_Status n)) = None)
         nodes2 ->
  buildNodeIPMap (nodes1 ++ node :: nodes2)%list !! node_Name node = Some ip.
Proof.
  intros Hip Hlater. unfold buildNodeIPMap.
  rewrite foldl_app. cbn [foldl].
  rewrite foldl_addNode_unchanged by exact Hlater.
  unfold addNode. rewrite Hip. apply lookup_insert_eq.
Qed.

Lemma joinPod_cases (nodeIPMap : gmap string string) (pod : Pod) :
  (status_PodIP (Status pod) = "" /\ joinPod nodeIPMap pod = None) \/
  (status_PodIP (Status pod) <> "" /\
   joinPod nodeIPMap pod =
   Some {| Name := pod_Name pod;
           IP := status_PodIP (Status pod);
           NodeName := spec_NodeName (Spec pod);
           NodeIP := default "" (nodeIPMap !! spec_NodeName (Spec pod)) |}).
Proof.
  unfold joinPod.
  destruct (decide (status_PodIP (Status pod) = "")) as [Hempty|Hip];
    [now left | right].
  split; [exact Hip|].
  now destruct (nodeIPMap !! spec_NodeName (Spec pod)).
Qed.

(** X16: the join returns one record for each pod with a non-empty pod
    IP, in the order of the listing, whatever the node address map holds:
    name, pod IP and node name are copied from the pod, the node IP is the
    entry of the map for the node name (the empty string without one), and
    no record has an empty pod IP. *)
Theorem joinPods_shape (nodeIPMap : gmap string string) (pods : list Pod) :
  let kept := filter (fun pod => status_PodIP (Status pod) <> "") pods in
  Name <$> joinPods nodeIPMap pods = pod_Name <$> kept /\
  IP <$> joinPods nodeIPMap pods =
    (fun pod => status_PodIP (Status pod)) <$> kept /\
  NodeName <$> joinPods nodeIPMap pods =
    (fun pod => spec_NodeName (Spec pod)) <$> kept /\
  NodeIP <$> joinPods nodeIPMap pods =
    (fun pod => default "" (nodeIPMap !! spec_NodeName (Spec pod))) <$> kept /\
  Forall (fun podInfo => IP podInfo <> "") (joinPods nodeIPMap pods).
Proof.
  cbv zeta. rewrite joinPods_omap.
  induction pods as [|pod pods (IHn & IHi & IHh & IHp & IHf)].
  - repeat split; constructor.
  - cbn [omap list_omap]. rewrite filter_cons.
    destruct (joinPod_cases nodeIPMap pod) as [[Hempty ->]|[Hip ->]].
    + rewrite decide_False by tauto. auto.
    + rewrite decide_True by exact Hip.
      rewrite !fmap_cons. cbn [Name IP NodeName NodeIP].
      rewrite IHn, IHi, IHh, IHp.
      repeat split; try reflexivity. now constructor.
Qed.

End TypedExtras.

(** ** Connecting and listing *)

(** Splits a goal made of conjunctions and equivalences and closes the parts
    that hold by a clash of constructors in a hypothesis. *)
Ltac by_cases_on_answers :=
  repeat split; unfold not; intros;
  repeat match goal with
         | H : _ /\ _ |- _ => destruct H
         | H : exists _, _ |- _ => destruct H
         end;
  try congruence; eauto.

Section TypedRun.

Import Typed.

Lemma getPodAndNodeInfo_home_fail (env : Env) (e : string) :
  KUBECONFIG env = "" ->
  UserHomeDir env = inl e ->
  getPodAndNodeInfo env = ([], Err ("error getting home directory: " ++ e)).
Proof.
  intros Hk Hh. unfold getPodAndNodeInfo.
  rewrite decide_True by exact Hk. now rewrite Hh.
Qed.

Lemma getPodAndNodeInfo_resolved (env : Env) (path : string) :
  resolved_kubeconfig env path ->
  getPodAndNodeInfo env =
  match BuildConfigFromFlags env path with
  | Some err => ([], Err ("error building kubeconfig: " ++ err))
  | None =>
      match NewForConfig env with
      | Some err => ([], Err ("error creating kubernetes client: " ++ err))
      | None =>
          match PodsList env "default" with
          | inl err =>
              ([ListPods (NamespaceParam "default")],
               Err ("error listing pods: " ++ err))
          | inr pods =>
              match NodesList env with
              | inl err =>
                  ([ListPods (NamespaceParam "default"); ListNodes],
                   Err ("error listing nodes: " ++ err))
              | inr nodes =>
                  ([ListPods (NamespaceParam "default"); ListNodes],
                   Ok (joinPods (buildNodeIPMap nodes) pods))
              end
          end
      end
  end.
Proof.
  intros [[Hk ->]|(Hk & homeDir & Hh & ->)]; unfold getPodAndNodeInfo.
  - now rewrite decide_False by exact Hk.
  - rewrite decide_True by exact Hk. now rewrite Hh.
Qed.

Lemma resolution_cases (env : Env) :
  (exists e, KUBECONFIG env = "" /\ UserHomeDir env = inl e) \/
  exists path, resolved_kubeconfig env path.
Proof.
  unfold resolved_kubeconfig.
  destruct (decide (KUBECONFIG env = "")) as [Hk|Hk]; [|right; eauto].
  destruct (UserHomeDir env) as [e|homeDir] eqn:Hh; [left; eauto|].
  right. exists (filepath.Join [homeDir; ".kube"; "config"]). right. eauto.
Qed.

Lemma resolved_kubeconfig_unique (env : Env) (p1 p2 : string) :
  resolved_kubeconfig env p1 -> resolved_kubeconfig env p2 -> p1 = p2.
Proof.
  intros [[H1 ->]|(H1 & h1 & Hh1 & ->)] [[H2 ->]|(H2 & h2 & Hh2 & ->)];
    try reflexivity; try contradiction.
  congruence.
Qed.

Lemma not_resolved_home_fail (env : Env) (e path : string) :
  KUBECONFIG env = "" -> UserHomeDir env = inl e ->
  ~ resolved_kubeconfig env path.
Proof.
  intros Hk Hh [[H _]|(_ & h & Hh' & _)]; [contradiction | congruence].
Qed.

(** X18: a failure before the listing calls.  When KUBECONFIG is empty
    and the home directory is unknown, when the kubeconfig at the resolved
    path does not load, or when the clientset cannot be created,
    [getPodAndNodeInfo] returns an error that names the step and makes no
    listing call; the command then prints the "Connecting" line and the
    error line, and exits with status 1. *)
Theorem failures_before_listing (env : Env) (args : list string) :
  (forall e,
      KUBECONFIG env = "" -> UserHomeDir env = inl e ->
      getPodAndNodeInfo env =
      ([], Err ("error getting home directory: " ++ e))) /\
  (forall path e,
      resolved_kubeconfig env path ->
      BuildConfigFromFlags env path = Some e ->
      getPodAndNodeInfo env = ([], Err ("error building kubeconfig: " ++ e))) /\
  (forall path e,
      resolved_kubeconfig env path ->
      BuildConfigFromFlags env path = None ->
      NewForConfig env = Some e ->
      getPodAndNodeInfo env =
      ([], Err ("error creating kubernetes client: " ++ e))) /\
  (forall e,
      getPodAndNodeInfo env = ([], Err e) ->
      Run env args =
      ([Stdout Plain ("Connecting to Kubernetes cluster..." ++ nl);
        Stdout Plain ("Error connecting to Kubernetes cluster: " ++ e ++ nl)],
       1%nat)).
Proof.
  repeat split.
  - intros e Hk Hh. exact (getPodAndNodeInfo_home_fail env e Hk Hh).
  - intros path e Hres Hcfg.
    rewrite (getPodAndNodeInfo_resolved env path Hres). now rewrite Hcfg.
  - intros path e Hres Hcfg Hnew.
    rewrite (getPodAndNodeInfo_resolved env path Hres). now rewrite Hcfg, Hnew.
  - intros e H. unfold Run. now rewrite H.
Qed.

(** X20: the listing calls of [getPodAndNodeInfo].  Its trace is empty
    exactly when the client cannot be created; it is the one pod listing of
    the namespace "default" exactly when the client is created and that
    listing fails; and it is the pod listing followed by the node listing
    exactly when the client is created and the pod listing succeeds.  So the
    nodes are never listed before the pods, nor after a failed pod
    listing. *)
Theorem listing_call_sequence (env : Env) :
  (fst (getPodAndNodeInfo env) = [] <-> ~ client_created env) /\
  (fst (getPodAndNodeInfo env) = [ListPods (NamespaceParam "default")] <->
   client_created env /\ exists e, PodsList env "default" = inl e) /\
  (fst (getPodAndNodeInfo env) =
     [ListPods (NamespaceParam "default"); ListNodes] <->
   client_created env /\ exists pods, PodsList env "default" = inr pods).
Proof.
  destruct (resolution_cases env) as [(e & Hk & Hh)|[path Hres]].
  { rewrite (getPodAndNodeInfo_home_fail env e Hk Hh). cbn [fst].
    assert (Hnot : ~ client_created env).
    { intros (path & Hres & _).
      exact (not_resolved_home_fail env e path Hk Hh Hres). }
    by_cases_on_answers; tauto. }
  rewrite (getPodAndNodeInfo_resolved env path Hres).
  assert (Hcreated : client_created env <->
                     BuildConfigFromFlags env path = None /\
                     NewForConfig env = None).
  { split.
    - intros (path' & Hres' & Hcfg & Hnew).
      now rewrite (resolved_kubeconfig_unique env path path' Hres Hres').
    - intros [Hcfg Hnew]. now exists path. }
  rewrite Hcreated. clear Hcreated.
  destruct (BuildConfigFromFlags env path) as [err|];
    [cbn [fst]; by_cases_on_answers|].
  destruct (NewForConfig env) as [err|];
    [cbn [fst]; by_cases_on_answers|].
  destruct (PodsList env "default") as [err|pods].
  - cbn [fst]. by_cases_on_answers. exfalso; auto.
  - destruct (NodesList env) as [err'|nodes]; cbn [fst];
      by_cases_on_answers; exfalso; auto.
Qed.

(** X21: the exit status of the typed-client command is 0 or 1, and it is
    0 exactly when the client is created and both listings succeed; the
    output is then the "Connecting" line, the header, the line of 80 dashes
    and one row for each joined record, so that a run without any pod that
    has an address still prints the header and the dashes. *)
Theorem exit_status_of_Run (env : Env) (args : list string) :
  (snd (Run env args) = 0%nat <->
   client_created env /\
   exists pods nodes,
     PodsList env "default" = inr pods /\ NodesList env = inr nodes /\
     stdout_of (fst (Run env args)) =
     (("Connecting to Kubernetes cluster..." ++ nl)%string
        :: Typed.table_row "POD NAME" "POD IP" "NODE NAME" "NODE IP"
        :: (GoStrings.Repeat "-" 80 ++ nl)%string
        :: map (fun info => Typed.table_row (Name info) (IP info)
                                            (NodeName info) (NodeIP info))
               (joinPods (buildNodeIPMap nodes) pods))%list) /\
  (snd (Run env args) = 0%nat \/ snd (Run env args) = 1%nat).
Proof.
  unfold Run.
  destruct (resolution_cases env) as [(e & Hk & Hh)|[path Hres]].
  { rewrite (getPodAndNodeInfo_home_fail env e Hk Hh). cbn [snd].
    split; [|now right]. split; [discriminate|].
    intros [(path & Hres & _) _].
    destruct (not_resolved_home_fail env e path Hk Hh Hres). }
  rewrite (getPodAndNodeInfo_resolved env path Hres).
  assert (Hcreated : client_created env ->
                     BuildConfigFromFlags env path = None /\
                     NewForConfig env = None).
  { intros (path' & Hres' & Hcfg & Hnew).
    now rewrite (resolved_kubeconfig_unique env path path' Hres Hres'). }
  destruct (BuildConfigFromFlags env path) as [err|] eqn:Hcfg.
  { cbn [snd]. split; [|now right]. split; [discriminate|].
    intros [Hc _]. destruct (Hcreated Hc) as [H _]. discriminate H. }
  destruct (NewForConfig env) as [err|] eqn:Hnew.
  { cbn [snd]. split; [|now right]. split; [discriminate|].
    intros [Hc _]. destruct (Hcreated Hc) as [_ H]. discriminate H. }
  destruct (PodsList env "default") as [err|pods].
  { cbn [snd]. split; [|now right]. split; [discriminate|].
    intros (_ & pods & nodes & H & _). discriminate H. }
  destruct (NodesList env) as [err|nodes].
  { cbn [snd]. split; [|now right]. split; [discriminate|].
    intros (_ & pods' & nodes & _ & H & _). discriminate H. }
  cbn [snd fst]. split; [|now left]. split; [|reflexivity].
  intros _. split; [now exists path|].
  exists pods, nodes. split; [reflexivity | split; [reflexivity|]].
  cbn [app stdout_of]. unfold printPodInfo.
  rewrite !stdout_of_app, stdout_of_lines. reflexivity.
Qed.

End TypedRun.

(** * The layout of the tables *)

Section Columns.
Import GoStrings.







End Columns.


Section BuilderColumns.
Import Builder.


End BuilderColumns.

Section TypedColumns.

Import Typed.


End TypedColumns.

Section Kubeconfig.

Import Typed.

(** X19: how the kubeconfig is found.  When KUBECONFIG is not empty the
    home directory is not consulted: the run is the same whatever the lookup
    of the home directory answers, an error included.  And the kubeconfig is
    loaded at the resolved path only: the run is the same whatever loading
    any other path would answer. *)
Theorem kubeconfig_resolution (env : Env) :
  (KUBECONFIG env <> "" ->
   forall home,
     getPodAndNodeInfo
       {| KUBECONFIG := KUBECONFIG env;
          UserHomeDir := home;
          BuildConfigFromFlags := BuildConfigFromFlags env;
          NewForConfig := NewForConfig env;
          PodsList := PodsList env;
          NodesList := NodesList env |} = getPodAndNodeInfo env) /\
  (forall path load,
      resolved_kubeconfig env path ->
      load path = BuildConfigFromFlags env path ->
      getPodAndNodeInfo
        {| KUBECONFIG := KUBECONFIG env;
           UserHomeDir := UserHomeDir env;
           BuildConfigFromFlags := load;
           NewForConfig := NewForConfig env;
           PodsList := PodsList env;
           NodesList := NodesList env |} = getPodAndNodeInfo env).
Proof.
  split.
  - intros Hk home. unfold getPodAndNodeInfo. cbn [KUBECONFIG UserHomeDir
      BuildConfigFromFlags NewForConfig PodsList NodesList].
    now rewrite !decide_False by exact Hk.
  - intros path load Hres Hload.
    rewrite (getPodAndNodeInfo_resolved env path Hres).
    rewrite (getPodAndNodeInfo_resolved _ path).
    + cbn [BuildConfigFromFlags NewForConfig PodsList NodesList].
      now rewrite Hload.
    + exact Hres.
Qed.

End Kubeconfig.

(** * The host address index *)

Section HostIndex.

Import Typed.

(** The inner loop returns the address of the first "InternalIP" entry. *)
Lemma firstInternalIP_split (addrs : list NodeAddress) (ip : string) :
  firstInternalIP addrs = Some ip <->
  exists pre addr post,
    addrs = (pre ++ addr :: post)%list /\
    Forall (fun a => addr_Type a <> "InternalIP") pre /\
    addr_Type addr = "InternalIP" /\ Address addr = ip.
Proof.
  revert ip. induction addrs as [|a addrs IH]; intros ip; cbn [firstInternalIP].
  - split; [discriminate|].
    intros (pre & addr & post & H & _). now destruct pre.
  - destruct (decide (addr_Type a = "InternalIP")) as [Ha|Ha].
    + split.
      * intros [= <-]. now exists [], a, addrs.
      * intros ([|b pre] & addr & post & H & Hpre & Haddr & Hip);
          injection H as -> ->; [congruence|].
        apply Forall_cons in Hpre as [Hb _]. contradiction.
    + rewrite IH. split.
      * intros (pre & addr & post & -> & Hpre & Haddr & Hip).
        exists (a :: pre), addr, post. repeat split; auto.
      * intros ([|b pre] & addr & post & H & Hpre & Haddr & Hip);
          injection H as -> ->; [contradiction|].
        apply Forall_cons in Hpre as [_ Hpre]. now exists pre, addr, post.
Qed.

(** The join maps each pod that has a pod IP to its record, in order. *)
Lemma joinPods_records (nodeIPMap : gmap string string) (pods : list Pod) :
  joinPods nodeIPMap pods =
  (fun pod =>
     {| Name := pod_Name pod;
        IP := status_PodIP (Status pod);
        NodeName := spec_NodeName (Spec pod);
        NodeIP := default "" (nodeIPMap !! spec_NodeName (Spec pod)) |})
  <$> filter (fun pod => status_PodIP (Status pod) <> "") pods.
Proof.
  rewrite joinPods_omap.
  induction pods as [|pod pods IH]; [reflexivity|].
  cbn [omap list_omap]. rewrite filter_cons.
  destruct (joinPod_cases nodeIPMap pod) as [[Hempty ->]|[Hip ->]].
  - now rewrite decide_False by tauto.
  - rewrite decide_True by exact Hip. now rewrite fmap_cons, IH.
Qed.

Lemma ListNodes_in_listing_calls (t : list Event) :
  ListNodes ∈ t -> ListNodes ∈ listing_calls t.
Proof.
  induction t as [|e t IH]; [inversion 1|].
  intros [<-|Hin]%elem_of_cons.
  - apply list_elem_of_here.
  - destruct e; cbn [listing_calls]; auto using list_elem_of_further.
Qed.

(** The resource-builder variant makes no host listing. *)
Lemma runFunc_lists_no_hosts cluster namespaceFlag args :
  ListNodes ∉ fst (Builder.runFunc cluster namespaceFlag args).
Proof.
  intros Hin%ListNodes_in_listing_calls.
  destruct args as [|p rest]; [inversion Hin|].
  rewrite runFunc_listing_calls in Hin.
  apply list_elem_of_singleton in Hin. discriminate Hin.
Qed.

(** The host IP of a record of the resource-builder variant is the
    "hostIP" of the status of its object. *)
Lemma convert_ok_hostIP (obj : Builder.Object) (record : Builder.PodInfo) :
  Builder.convertObjectToPodInfo obj = Ok record ->
  exists content status,
    Builder.content_of obj = Some content /\
    content !! "status" = Some (Builder.VMap status) /\
    status !! "hostIP" = Some (Builder.VString (Builder.NodeIP record)).
Proof.
  intros H.
  destruct (Builder.content_of obj) as [c|] eqn:Hc.
  2:{ destruct obj as [c|[e|c]]; discriminate. }
  destruct (sections_or_lacks obj c Hc) as [Hl|(spec & status & Hs & Ht)].
  { rewrite (lacks_section_convert obj Hl) in H. discriminate. }
  rewrite (content_of_convert obj c Hc),
    (convert_with_sections c spec status Hs Ht) in H.
  destruct (Builder.assert_string (Builder.index spec "nodeName"))
    as [n| |]; try discriminate.
  destruct (Builder.assert_string (Builder.index status "hostIP"))
    as [h| |] eqn:Hh; try discriminate.
  injection H as <-. apply assert_string_Ok, index_VString in Hh.
  now exists c, status.
Qed.

(** C5, amended: in the typed-client variant the query builds a host
    address index that maps each host name of the list (host names being
    unique) to the address of the first "InternalIP" entry of that host's
    address list, with no entry for a host without such an entry nor for
    other names; every instance that has a pod IP yields a joined record, in
    the order of the listing, whose host IP is the entry of the index for
    its bound host name (the empty string without an entry); and a
    successful run lists pods and hosts and returns these records.  The
    resource-builder variant lists no hosts and builds no index: the host IP
    of its records is the "hostIP" of the status of the instance. *)
Theorem node_index_and_join (nodes : list Node) :
  NoDup (node_Name <$> nodes) ->
  (forall node,
      node ∈ nodes ->
      buildNodeIPMap nodes !! node_Name node =
        firstInternalIP (Addresses (node_Status node)) /\
      forall ip,
        buildNodeIPMap nodes !! node_Name node = Some ip <->
        exists pre addr post,
          Addresses (node_Status node) = (pre ++ addr :: post)%list /\
          Forall (fun a => addr_Type a <> "InternalIP") pre /\
          addr_Type addr = "InternalIP" /\ Address addr = ip) /\
  (forall h, h ∉ node_Name <$> nodes -> buildNodeIPMap nodes !! h = None) /\
  (forall pods,
      joinPods (buildNodeIPMap nodes) pods =
      (fun pod =>
         {| Name := pod_Name pod;
            IP := status_PodIP (Status pod);
            NodeName := spec_NodeName (Spec pod);
            NodeIP := default ""
                        (buildNodeIPMap nodes !! spec_NodeName (Spec pod)) |})
      <$> filter (fun pod => status_PodIP (Status pod) <> "") pods) /\
  (forall env pods,
      client_created env ->
      PodsList env "default" = inr pods ->
      NodesList env = inr nodes ->
      getPodAndNodeInfo env =
      ([ListPods (NamespaceParam "default"); ListNodes],
       Ok (joinPods (buildNodeIPMap nodes) pods))) /\
  (forall cluster namespaceFlag args,
      ListNodes ∉ fst (Builder.runFunc cluster namespaceFlag args)) /\
  (forall obj record,
      Builder.convertObjectToPodInfo obj = Ok record ->
      exists content status,
        Builder.content_of obj = Some content /\
        content !! "status" = Some (Builder.VMap status) /\
        status !! "hostIP" = Some (Builder.VString (Builder.NodeIP record))).
Proof.
  intros Hnd.
  assert (Hentry : forall node,
             node ∈ nodes ->
             buildNodeIPMap nodes !! node_Name node =
             firstInternalIP (Addresses (node_Status node))).
  { intros node Hin. rewrite buildNodeIPMap_foldl.
    rewrite foldl_addNode_member by assumption.
    now destruct (firstInternalIP _). }
  split; [|split; [|split; [|split; [|split]]]].
  - intros node Hin. split; [exact (Hentry node Hin)|].
    intros ip. rewrite (Hentry node Hin). apply firstInternalIP_split.
  - intros h Hh. rewrite buildNodeIPMap_foldl.
    now rewrite foldl_addNode_other by exact Hh.
  - intros pods. apply joinPods_records.
  - intros env pods (path & Hres & Hcfg & Hnew) Hpods Hnodes.
    rewrite (getPodAndNodeInfo_resolved env path Hres).
    now rewrite Hcfg, Hnew, Hpods, Hnodes.
  - apply runFunc_lists_no_hosts.
  - apply convert_ok_hostIP.
Qed.

End HostIndex.

End Properties.

(** * Instances of the properties, on the sample clusters *)

(** The examples are run with the excerpt of the case table. *)
#[local] Existing Instance Samples.table_excerpt.

Section BuilderInstances.

Import Builder.

(** C1, as it is stated, fails: an instance whose name matches the pattern
    is absent from the result when its record has no "spec" and no "status"
    section, because the visitor skips it.  Here the listing holds the one
    object [Samples.pod_broken], named "nginx-4", and the pattern is
    "nginx". *)
Lemma filter_iff_fails_on_skipped_record :
  let objs := [Samples.pod_broken] in
  let p := "nginx" in
  ~ (forall n : string,
        n ∈ object_name <$> objs ->
        (exists r, Visit (inr objs) (visitFn p) = Ok r /\ n ∈ Name <$> r) <->
        GoStrings.Contains (GoStrings.ToLower n) (GoStrings.ToLower p) = true).
Proof.
  intros objs p H.
  assert (Hin : "nginx-4" ∈ object_name <$> objs).
  { change (object_name <$> objs) with ["nginx-4"]. apply list_elem_of_here. }
  destruct (H _ Hin) as [_ Hback].
  destruct (Hback eq_refl) as (r & Hr & Hn).
  assert (Hnil : Visit (inr objs) (visitFn p) = Ok []) by reflexivity.
  rewrite Hnil in Hr. injection Hr as <-.
  inversion Hn.
Qed.

Lemma runFunc_retains_matching_converted_witness :
  (exists r,
      Visit (inr [Samples.pod_broken; Samples.pod_running; Samples.pod_other])
            (visitFn "nGinx") = Ok r /\
      Name <$> r = ["Nginx-1"]) /\
  (exists r,
      Visit (inr [Samples.pod_kube_proxy; Samples.pod_other])
            (visitFn Samples.kelvin_ube_proxy) = Ok r /\
      Name <$> r = ["kube-proxy"]).
Proof.
  split.
  - destruct (runFunc_retains_matching_converted "nGinx"
                [Samples.pod_broken; Samples.pod_running; Samples.pod_other])
      as (r & Hr & Heq & _).
    + repeat constructor.
    + exists r. split; [exact Hr|]. rewrite Heq. reflexivity.
  - destruct (runFunc_retains_matching_converted Samples.kelvin_ube_proxy
                [Samples.pod_kube_proxy; Samples.pod_other])
      as (r & Hr & Heq & _).
    + repeat constructor.
    + exists r. split; [exact Hr|]. rewrite Heq. reflexivity.
Defined.

(** C3, as it is stated, fails: with the empty string as pattern the run is
    not rejected; the pods are listed and the command succeeds. *)
Lemma empty_pattern_not_rejected :
  let run := runFunc (Samples.cluster_of [Samples.pod_running]) "" [""] in
  ~ (listing_calls (fst run) = [] /\ exists e, snd run = Err e).
Proof.
  intros run [Hcalls _].
  unfold run in Hcalls. rewrite runFunc_listing_calls in Hcalls.
  discriminate.
Qed.

Lemma malformed_record_skipped_witness :
  Visit (inr [Samples.pod_other; Samples.pod_broken; Samples.pod_running])
        (visitFn "nginx") =
  Visit (inr [Samples.pod_other; Samples.pod_running]) (visitFn "nginx").
Proof.
  destruct (malformed_record_skipped "nginx" [Samples.pod_other]
              Samples.pod_broken [Samples.pod_running]) as [H _].
  - reflexivity.
  - exact H.
Defined.

Lemma no_match_message_exit_zero_witness :
  snd (Execute (Samples.cluster_of [Samples.pod_other; Samples.pod_running])
               "dev" ["mysql"]) = 0%nat.
Proof.
  destruct (no_match_message_exit_zero
              (Samples.cluster_of [Samples.pod_other; Samples.pod_running])
              "dev" "mysql" []) as (_ & _ & H).
  - reflexivity.
  - exact H.
Defined.

Lemma empty_pattern_matches_all_witness :
  Visit (inr [Samples.pod_running; Samples.pod_broken; Samples.pod_other])
        (visitFn "") =
  Ok (converted [Samples.pod_running; Samples.pod_broken; Samples.pod_other]).
Proof.
  destruct (empty_pattern_matches_all
              (Samples.cluster_of
                 [Samples.pod_running; Samples.pod_broken; Samples.pod_other])
              "" []
              [Samples.pod_running; Samples.pod_broken; Samples.pod_other])
    as [H _].
  - reflexivity.
  - repeat constructor.
  - exact H.
Defined.

Lemma absent_host_fields_panic_witness :
  convertObjectToPodInfo Samples.pod_pending =
    Panic "interface conversion: interface {} is nil, not string" /\
  Execute (Samples.cluster_of [Samples.pod_running; Samples.pod_pending])
          "" ["nginx"] =
    ([ListPods AllNamespaces], 2%nat).
Proof.
  destruct (absent_host_fields_panic
              (<["metadata" := VMap (<["name" := VString "nginx-3"]>
                                     (<["namespace" := VString "dev"]> ∅))]>
               (<["spec" := VMap ∅]>
                (<["status" := VMap (<["phase" := VString "Pending"]> ∅)]>
                 ∅)))
              ∅ (<["phase" := VString "Pending"]> ∅))
    as (Hconv & _ & Hrun).
  - reflexivity.
  - reflexivity.
  - left. reflexivity.
  - split; [exact Hconv|].
    apply (Hrun (Samples.cluster_of [Samples.pod_running; Samples.pod_pending])
                "" "nginx" []
                [Samples.pod_running; Samples.pod_pending]).
    + reflexivity.
    + apply list_elem_of_further, list_elem_of_here.
Defined.

End BuilderInstances.

Section TypedInstances.

Import Typed.

(** C5, as it is stated, fails on the resource-builder variant: its run
    lists no hosts, so it builds no host address index. *)
Lemma builder_query_builds_no_index :
  ~ (ListNodes ∈
       fst (Builder.runFunc (Samples.cluster_of [Samples.pod_running])
                            "" ["nginx"])).
Proof.
  change (fst (Builder.runFunc (Samples.cluster_of [Samples.pod_running])
                               "" ["nginx"]))
    with (ListPods AllNamespaces
          :: Builder.printColoredTable
               [ {| Builder.Name := "Nginx-1"; Builder.Namespace := "dev";
                    Builder.IP := "10.1.0.5"; Builder.NodeName := "h1";
                    Builder.NodeIP := "10.0.0.1" |} ]).
  intros Hin.
  repeat (apply elem_of_cons in Hin as [Hin|Hin]; [discriminate Hin|]).
  inversion Hin.
Qed.

Lemma node_index_and_join_witness :
  buildNodeIPMap Samples.nodes !! "h1" = Some "10.0.0.1" /\
  buildNodeIPMap Samples.nodes !! "h2" = Some "10.0.0.2" /\
  joinPods (buildNodeIPMap Samples.nodes)
           [Samples.mkTypedPod "web-0" "10.1.0.5" "h1"] =
  [ {| Name := "web-0"; IP := "10.1.0.5"; NodeName := "h1";
       NodeIP := "10.0.0.1" |} ].
Proof.
  destruct (node_index_and_join Samples.nodes) as (Hindex & _ & Hjoin & _).
  - apply (bool_decide_unpack _). vm_compute. exact I.
  - split; [|split].
    + apply (Hindex (Samples.mkNode "h1"
                       [Samples.external "192.0.2.1";
                        Samples.internal "10.0.0.1";
                        Samples.internal "10.0.0.7"])).
      * apply list_elem_of_here.
      * exists [Samples.external "192.0.2.1"], (Samples.internal "10.0.0.1"),
          [Samples.internal "10.0.0.7"].
        repeat split. repeat constructor. discriminate.
    + apply (Hindex (Samples.mkNode "h2" [Samples.internal "10.0.0.2"])).
      * apply list_elem_of_further, list_elem_of_here.
      * exists [], (Samples.internal "10.0.0.2"), []. repeat split.
        constructor.
    + rewrite Hjoin. reflexivity.
Defined.


(** C4, as it is stated, fails on the typed-client variant: the pod "web-1"
    of [Samples.env_ok] has no address, and the result holds no record for
    it. *)
Lemma typed_join_drops_pod_without_ip :
  ~ (exists r,
        snd (getPodAndNodeInfo Samples.env_ok) = Ok r /\
        exists podInfo, podInfo ∈ r /\ Name podInfo = "web-1").
Proof.
  intros (r & Hr & podInfo & Hin & Hname).
  assert (Hrun : snd (getPodAndNodeInfo Samples.env_ok) =
                 Ok [ {| Name := "web-0"; IP := "10.1.0.5";
                         NodeName := "h1"; NodeIP := "10.0.0.1" |};
                      {| Name := "web-2"; IP := "10.1.0.6";
                         NodeName := "h3"; NodeIP := "" |} ])
    by reflexivity.
  rewrite Hrun in Hr. injection Hr as <-.
  repeat (apply elem_of_cons in Hin as [->|Hin]; [discriminate|]).
  inversion Hin.
Qed.

Lemma absent_pod_ip_witness :
  Builder.convertObjectToPodInfo Samples.pod_creating =
    Ok {| Builder.Name := "nginx-2"; Builder.Namespace := "dev";
          Builder.IP := ""; Builder.NodeName := "h1";
          Builder.NodeIP := "10.0.0.1" |} /\
  joinPod ∅ (Samples.mkTypedPod "web-1" "" "") = None.
Proof.
  destruct absent_pod_ip as [Hbuilder Htyped].
  split.
  - pose proof
      (Hbuilder
         (<["metadata" :=
              Builder.VMap (<["name" := Builder.VString "nginx-2"]>
                            (<["namespace" := Builder.VString "dev"]> ∅))]>
          (<["spec" :=
               Builder.VMap (<["nodeName" := Builder.VString "h1"]> ∅)]>
           (<["status" :=
                Builder.VMap
                  (<["hostIP" := Builder.VString "10.0.0.1"]> ∅)]> ∅)))
         (<["nodeName" := Builder.VString "h1"]> ∅)
         (<["hostIP" := Builder.VString "10.0.0.1"]> ∅)
         "h1" "10.0.0.1"
         eq_refl eq_refl (or_introl eq_refl) eq_refl eq_refl) as [Hconv _].
    exact Hconv.
  - apply (Htyped ∅ (Samples.mkTypedPod "web-1" "" "")). reflexivity.
Defined.

Lemma listing_failure_fails_whole_query_witness :
  Builder.Execute (Samples.cluster_down "connection refused") "dev" ["nginx"] =
    ([ListPods (NamespaceParam "dev");
      Stdout Plain ("failed to retrieve pods: connection refused" ++ nl)],
     1%nat) /\
  snd (getPodAndNodeInfo Samples.env_pods_fail) =
    Err "error listing pods: connection refused" /\
  snd (getPodAndNodeInfo Samples.env_nodes_fail) =
    Err "error listing nodes: forbidden".
Proof.
  destruct listing_failure_fails_whole_query as (Hb & Hpods & Hnodes & _).
  split; [|split].
  - apply (Hb (Samples.cluster_down "connection refused") "dev" "nginx" []
              "connection refused").
    reflexivity.
  - destruct (Hpods Samples.env_pods_fail [] "connection refused") as [H _].
    + repeat split. left. discriminate.
    + reflexivity.
    + now rewrite H.
  - destruct (Hnodes Samples.env_nodes_fail [] Samples.typed_pods "forbidden")
      as [H _].
    + repeat split. right. now exists "/root".
    + reflexivity.
    + reflexivity.
    + now rewrite H.
Defined.

(** C7, as it is stated, fails on the typed-client variant, which declares
    no flag: its run never lists the pods of all namespaces. *)
Lemma typed_variant_never_lists_all_namespaces :
  ~ (ListPods AllNamespaces ∈ fst (Run Samples.env_ok [])).
Proof.
  intros Hin.
  change (fst (Run Samples.env_ok [])) with
    (Stdout Plain ("Connecting to Kubernetes cluster..." ++ nl)
     :: ListPods (NamespaceParam "default") :: ListNodes
     :: printPodInfo
          [ {| Name := "web-0"; IP := "10.1.0.5";
               NodeName := "h1"; NodeIP := "10.0.0.1" |};
            {| Name := "web-2"; IP := "10.1.0.6";
               NodeName := "h3"; NodeIP := "" |} ]) in Hin.
  repeat (apply elem_of_cons in Hin as [Hin|Hin]; [discriminate|]).
  inversion Hin.
Qed.

Lemma namespace_scope_of_listing_witness :
  listing_calls
    (fst (Builder.runFunc (Samples.cluster_of [Samples.pod_running])
                          "dev" ["nginx"])) =
    [ListPods (NamespaceParam "dev")] /\
  exists calls,
    listing_calls (fst (getPodAndNodeInfo Samples.env_ok)) =
    ListPods (NamespaceParam "default") :: calls.
Proof.
  destruct namespace_scope_of_listing as (Hflag & _ & _ & Htyped).
  split.
  - apply Hflag. discriminate.
  - destruct (Htyped Samples.env_ok) as (calls & Hcalls & _).
    + repeat split. left. discriminate.
    + now exists calls.
Defined.

End TypedInstances.

Section BuilderExtraInstances.

Import Builder.

Lemma podIP_only_sets_IP_witness :
  convertObjectToPodInfo
    (Unstructured
       (<["status" := VMap (<["podIP" := VInt64 7]>
                            (<["hostIP" := VString "10.0.0.1"]> ∅))]>
        (<["metadata" := VMap (<["name" := VString "nginx-2"]> ∅)]>
         (<["spec" := VMap (<["nodeName" := VString "h1"]> ∅)]>
          (<["status" := VMap (<["hostIP" := VString "10.0.0.1"]> ∅)]> ∅))))) =
  Ok {| Name := "nginx-2"; Namespace := ""; IP := "";
        NodeName := "h1"; NodeIP := "10.0.0.1" |}.
Proof.
  rewrite (podIP_only_sets_IP _ (<["nodeName" := VString "h1"]> ∅)
             (<["hostIP" := VString "10.0.0.1"]> ∅) (VInt64 7));
    reflexivity.
Defined.

Lemma pattern_case_insensitive_witness :
  Visit (inr [Samples.pod_running; Samples.pod_other]) (visitFn "NGINX") =
  Visit (inr [Samples.pod_running; Samples.pod_other]) (visitFn "nginx") /\
  Visit (inr [Samples.pod_kube_proxy]) (visitFn Samples.kelvin_ube_proxy) =
  Visit (inr [Samples.pod_kube_proxy]) (visitFn "kube-proxy").
Proof.
  split.
  - apply (pattern_case_insensitive "NGINX" "nginx"). reflexivity.
  - apply (pattern_case_insensitive Samples.kelvin_ube_proxy "kube-proxy").
    reflexivity.
Defined.

Lemma narrower_pattern_filters_further_witness :
  exists rp rq,
    Visit (inr [Samples.pod_running; Samples.pod_creating; Samples.pod_other])
          (visitFn "NGINX") = Ok rp /\
    Visit (inr [Samples.pod_running; Samples.pod_creating; Samples.pod_other])
          (visitFn "nginx-2") = Ok rq /\
    rq ⊆ rp.
Proof.
  destruct (narrower_pattern_filters_further "NGINX" "nginx-2"
              [Samples.pod_running; Samples.pod_creating; Samples.pod_other])
    as (rp & rq & Hp & Hq & _ & Hsub).
  - repeat constructor.
  - reflexivity.
  - exists rp, rq. auto.
Defined.

Lemma first_panic_ends_walk_witness :
  Visit (inr [Samples.pod_running; Samples.pod_pending; Samples.pod_other])
        (visitFn "redis") =
  Panic "interface conversion: interface {} is nil, not string".
Proof.
  apply (first_panic_ends_walk "redis" _ [Samples.pod_running]
           Samples.pod_pending [Samples.pod_other]).
  - repeat constructor.
  - reflexivity.
Defined.

Lemma table_rows_are_retained_records_witness :
  length (stdout_of
            (fst (runFunc (Samples.cluster_of
                             [Samples.pod_running; Samples.pod_broken;
                              Samples.pod_other; Samples.pod_creating])
                          "" ["nginx"]))) = 6%nat.
Proof.
  rewrite (table_rows_are_retained_records
             (Samples.cluster_of
                [Samples.pod_running; Samples.pod_broken;
                 Samples.pod_other; Samples.pod_creating])
             "" "nginx" []
             [Samples.pod_running; Samples.pod_broken;
              Samples.pod_other; Samples.pod_creating]).
  - reflexivity.
  - reflexivity.
  - repeat constructor.
  - discriminate.
Defined.

End BuilderExtraInstances.

Section TypedExtraInstances.

Import Typed.

Lemma later_host_overrides_witness :
  buildNodeIPMap [Samples.mkNode "h1" [Samples.internal "10.0.0.1"];
                  Samples.mkNode "h1" [Samples.internal "10.0.0.9"];
                  Samples.mkNode "h1" [Samples.external "192.0.2.1"]]
    !! "h1" = Some "10.0.0.9".
Proof.
  apply (later_host_overrides
           [Samples.mkNode "h1" [Samples.internal "10.0.0.1"]]
           (Samples.mkNode "h1" [Samples.internal "10.0.0.9"])
           [Samples.mkNode "h1" [Samples.external "192.0.2.1"]]).
  - reflexivity.
  - repeat constructor.
Defined.

Lemma failures_before_listing_witness :
  Run Samples.env_no_home [] =
  ([Stdout Plain ("Connecting to Kubernetes cluster..." ++ nl);
    Stdout Plain ("Error connecting to Kubernetes cluster: " ++
                  "error getting home directory: $HOME is not defined" ++ nl)],
   1%nat).
Proof.
  destruct (failures_before_listing Samples.env_no_home []) as (Hhome & _ & _ & Hrun).
  apply Hrun. apply Hhome; reflexivity.
Defined.

Lemma kubeconfig_resolution_witness :
  getPodAndNodeInfo
    {| KUBECONFIG := "/etc/kube/config";
       UserHomeDir := inl "$HOME is not defined";
       BuildConfigFromFlags := fun _ => None;
       NewForConfig := None;
       PodsList := PodsList Samples.env_ok;
       NodesList := inr Samples.nodes |} =
  getPodAndNodeInfo Samples.env_ok /\
  resolved_kubeconfig Samples.env_home_root "/.kube/config" /\
  getPodAndNodeInfo
    {| KUBECONFIG := "";
       UserHomeDir := inr "/";
       BuildConfigFromFlags := fun _ => None;
       NewForConfig := None;
       PodsList := PodsList Samples.env_home_root;
       NodesList := inr Samples.nodes |} =
  getPodAndNodeInfo Samples.env_home_root.
Proof.
  assert (Hres : resolved_kubeconfig Samples.env_home_root "/.kube/config").
  { right. split; [reflexivity|]. now exists "/". }
  split; [|split; [exact Hres|]].
  - destruct (kubeconfig_resolution Samples.env_ok) as [Hhome _].
    apply (Hhome ltac:(discriminate) (inl "$HOME is not defined")).
  - destruct (kubeconfig_resolution Samples.env_home_root) as [_ Hload].
    apply (Hload "/.kube/config" (fun _ => None) Hres). reflexivity.
Defined.

Lemma joinPod_absent_host_witness :
  joinPod (buildNodeIPMap Samples.nodes)
          (Samples.mkTypedPod "web-2" "10.1.0.6" "h3") =
  Some {| Name := "web-2"; IP := "10.1.0.6"; NodeName := "h3";
          NodeIP := "" |}.
Proof.
  apply (joinPod_absent_host (buildNodeIPMap Samples.nodes)
           (Samples.mkTypedPod "web-2" "10.1.0.6" "h3")).
  - discriminate.
  - reflexivity.
Defined.

End TypedExtraInstances.

Lemma nameless_record_needs_empty_pattern_witness :
  Builder.matches "nginx"
    {| Builder.Name := ""; Builder.Namespace := "dev"; Builder.IP := "";
       Builder.NodeName := "h1"; Builder.NodeIP := "10.0.0.1" |} = true <->
  "nginx" = "".
Proof.
  apply (nameless_record_needs_empty_pattern "nginx"). reflexivity.
Defined.

Lemma nodeIPMap_entries_witness :
  exists node,
    node ∈ Samples.nodes /\ Typed.node_Name node = "h1" /\
    Typed.firstInternalIP (Typed.Addresses (Typed.node_Status node)) =
    Some "10.0.0.1".
Proof.
  destruct (nodeIPMap_entries Samples.nodes "h1") as [Hentry _].
  apply Hentry. reflexivity.
Defined.


